(** * libxcam: the image-handler stage contract (xcore/image_handler.h)
      and the buffer probe of tests/test-video-stabilization.cpp

    A shallow embedding of the two source files.  Pointers held in a
    [SmartPtr] are modelled as options (null is [None]); objects carry an
    identity and their dynamic class, so that "the same item" is equality of
    objects and a run-time checked downcast is a test on the dynamic class. *)

From stdpp Require Import base option list strings.
From Stdlib Require Import ZArith Lia.
From Stdlib Require Strings.Byte.

Local Open Scope Z_scope.

(** ** Smart pointers and metadata objects *)

Module Ptr.

(** [SmartPtr<T>]: either null or a reference to an object of type [T]. *)
Definition SmartPtr (T : Type) : Type := option T.

(** [p.ptr ()] seen as a truth value, as in [if (p.ptr ())]. *)
Definition ptr {T : Type} (p : SmartPtr T) : bool :=
  match p with Some _ => true | None => false end.

Definition NULL {T : Type} : SmartPtr T := None.

End Ptr.
Export Ptr.

Module Meta.

(** The dynamic class of an object (its run-time type information). *)
Definition ClassId : Type := string.

(** An object reachable through a [SmartPtr<MetaBase>]: its identity (the
    address of the object) and the class it was created with. *)
Record MetaBase : Type := mkMeta { meta_addr : Z; meta_class : ClassId }.

(** [MetaBaseList], a [std::list<SmartPtr<MetaBase>>]: front of the Rocq
    list is [begin ()], [push_back] appends at the end. *)
Definition MetaBaseList : Type := list (SmartPtr MetaBase).

Definition push_back (l : MetaBaseList) (m : SmartPtr MetaBase) : MetaBaseList :=
  l ++ [m].

Section Cast.
(** The class hierarchy, which lives in headers outside these sources:
    [derives c t] tells whether an object of dynamic class [c] can be
    viewed as a [t]. *)
Variable derives : ClassId -> ClassId -> bool.

(** Modelled from the spec: [SmartPtr::dynamic_cast_ptr<MType>] (smart_ptr.h
    is not among the sources).  The capability lookup of the spec: the
    result designates the same object when it satisfies the requested
    type, and is null otherwise; a null pointer casts to null. *)
Definition dynamic_cast_ptr (MType : ClassId) (p : SmartPtr MetaBase)
  : SmartPtr MetaBase :=
  match p with
  | Some o => if derives (meta_class o) MType then Some o else None
  | None => None
  end.
End Cast.

End Meta.
Export Meta.

(** ** Video buffers *)

Module Buffer.

(** [VideoBufferInfo], as far as the sources read it: the four-character
    format, the picture size, and per component the stride and the offset
    of its plane in the mapped memory (C arrays, indexed from 0).  The
    numbers are the values of [uint32_t] fields. *)
Record VideoBufferInfo : Type := mkInfo {
  format : Z;
  width : Z;
  height : Z;
  components : Z;
  strides : list Z;
  offsets : list Z
}.

(** [VideoBufferPlanarInfo]: the geometry of one plane. *)
Record VideoBufferPlanarInfo : Type := mkPlanar {
  planar_width : Z;
  planar_height : Z;
  pixel_bytes : Z
}.

(** A buffer ([VideoBuffer], [BufferProxy]): its description and the bytes
    that [map ()] exposes. *)
Record VideoBuffer : Type := mkBuf {
  video_info : VideoBufferInfo;
  memory : list Byte.byte
}.

End Buffer.
Export Buffer.

(** ** ImageHandler::Parameters *)

Module Params.

(** [struct Parameters]: the two buffers and the private list of metadata. *)
Record Parameters : Type := mkParams {
  in_buf : SmartPtr VideoBuffer;
  out_buf : SmartPtr VideoBuffer;
  _metas : MetaBaseList
}.

(** The constructor [Parameters (in = NULL, out = NULL)]: [_metas] starts
    empty. *)
Definition new_Parameters (i o : SmartPtr VideoBuffer) : Parameters :=
  {| in_buf := i; out_buf := o; _metas := [] |}.

Definition set_metas (p : Parameters) (l : MetaBaseList) : Parameters :=
  {| in_buf := in_buf p; out_buf := out_buf p; _metas := l |}.

Definition set_out_buf (p : Parameters) (o : SmartPtr VideoBuffer) : Parameters :=
  {| in_buf := in_buf p; out_buf := o; _metas := _metas p |}.

(** [bool Parameters::add_meta (const SmartPtr<MetaBase> &meta)]: the
    returned flag and the object after the call. *)
Definition add_meta (meta : SmartPtr MetaBase) (p : Parameters) : bool * Parameters :=
  if negb (ptr meta) then (false, p)
  else (true, set_metas p (push_back (_metas p) meta)).

Section Find.
Variable derives : ClassId -> ClassId -> bool.

(** The loop of [find_meta], from an iterator position to [end ()]. *)
Fixpoint find_meta_from (MType : ClassId) (l : MetaBaseList) : SmartPtr MetaBase :=
  match l with
  | [] => NULL
  | i :: rest =>
      let m := dynamic_cast_ptr derives MType i in
      if ptr m then m else find_meta_from MType rest
  end.

(** [template <typename MType> SmartPtr<MType> Parameters::find_meta ()]. *)
Definition find_meta (MType : ClassId) (p : Parameters) : SmartPtr MetaBase :=
  find_meta_from MType (_metas p).
End Find.

(** A sequence of [add_meta] calls, results dropped. *)
Definition add_all (items : list (SmartPtr MetaBase)) (p : Parameters) : Parameters :=
  fold_left (fun q m => snd (add_meta m q)) items p.

End Params.
Export Params.

(** ** ImageHandler: the stage *)

Module Handler.

(** Modelled from the spec: [XCamReturn] (xcam_std.h is not among the
    sources).  [XCAM_RETURN_NO_ERROR], [XCAM_RETURN_BYPASS] (the benign
    end-of-stream signal) and [XCAM_RETURN_ERROR_FILE] are the codes the
    test program names; the others are the error taxonomy of the spec. *)
Inductive XCamReturn : Type :=
| XCAM_RETURN_NO_ERROR
| XCAM_RETURN_BYPASS
| XCAM_RETURN_ERROR_FILE
| InvalidParameter
| ResourceExhausted
| ConfigurationFailed
| InvalidState
| AlgorithmFailure (code : Z).

Definition is_ok (r : XCamReturn) : bool :=
  match r with XCAM_RETURN_NO_ERROR => true | _ => false end.

(** [#define XCAM_DEFAULT_HANDLER_BUF_CAP 4] *)
Definition XCAM_DEFAULT_HANDLER_BUF_CAP : Z := 4.

(** A [Callback] object, known by its identity; what [execute_status] does
    with a report is the consumer's business, the model records the call. *)
Record Callback : Type := mkCallback { cb_addr : Z }.

(** One call of [Callback::execute_status (handler, params, error)]; the
    parameters are passed as the [SmartPtr<Parameters>] the entry point
    received, which may be null. *)
Record Notification : Type := mkNote {
  note_cb : Callback;
  note_params : SmartPtr Parameters;
  note_error : XCamReturn
}.

(** Modelled from the spec: what the stage-specific work routine reports
    (section 4.4, step 3): either the work ran to its end within the call and
    its status is final, or it was only submitted to the asynchronous
    facility and its outcome is not known yet. *)
Inductive WorkResult : Type :=
| Finished (st : XCamReturn)
| Enqueued.

Section Stage.
(** [Pool] is the external buffer allocator ([BufferPool]); [X] is the
    state of everything behind the extension points: the concrete stage
    and the asynchronous execution facility. *)
Context {Pool X : Type}.

(** The data members of [class ImageHandler], as the header declares them
    (lines 121 to 130).  The lifecycle of the stage is the flag
    [_need_configure]: the class has no member that tells a stage after
    [terminate] from a configured one, so the third state of section 4.4 of
    the spec is, in this model, a stage whose allocator has been released. *)
Record ImageHandler : Type := mkHandler {
  _need_configure : bool;
  _enable_allocator : bool;
  _callback : SmartPtr Callback;
  _out_video_info : VideoBufferInfo;
  _allocator : SmartPtr Pool;
  _buf_capacity : Z;
  _name : SmartPtr string
}.

Definition with_need_configure (b : bool) (h : ImageHandler) : ImageHandler :=
  mkHandler b (_enable_allocator h) (_callback h) (_out_video_info h)
            (_allocator h) (_buf_capacity h) (_name h).

Definition with_allocator (a : SmartPtr Pool) (h : ImageHandler) : ImageHandler :=
  mkHandler (_need_configure h) (_enable_allocator h) (_callback h) (_out_video_info h)
            a (_buf_capacity h) (_name h).

(** [bool set_callback (SmartPtr<Callback> cb) { _callback = cb; return true; }] *)
Definition set_callback (cb : SmartPtr Callback) (h : ImageHandler)
  : bool * ImageHandler :=
  (true,
   mkHandler (_need_configure h) (_enable_allocator h) cb (_out_video_info h)
             (_allocator h) (_buf_capacity h) (_name h)).

(** [const SmartPtr<Callback> & get_callback () const { return _callback; }] *)
Definition get_callback (h : ImageHandler) : SmartPtr Callback := _callback h.

(** [const char *get_name () const { return _name; }] *)
Definition get_name (h : ImageHandler) : SmartPtr string := _name h.

(** [const SmartPtr<BufferPool> &get_allocator () const] *)
Definition get_allocator (h : ImageHandler) : SmartPtr Pool := _allocator h.

(** [const VideoBufferInfo &get_out_video_info ()] *)
Definition get_out_video_info (h : ImageHandler) : VideoBufferInfo :=
  _out_video_info h.

(** Modelled from the spec: the body of [set_out_video_info], declared in
    the header and defined in image_handler.cpp, which is not among the
    sources ([set_output_format (descriptor)] of section 6). *)
Definition set_out_video_info (info : VideoBufferInfo) (h : ImageHandler)
  : bool * ImageHandler :=
  (true,
   mkHandler (_need_configure h) (_enable_allocator h) (_callback h) info
             (_allocator h) (_buf_capacity h) (_name h)).

(** Modelled from the spec: the body of [enable_allocator], declared in the
    header and defined in image_handler.cpp, which is not among the
    sources ([enable_self_allocation (enabled, capacity)] of section 6):
    it records the switch and the capacity of the private allocator. *)
Definition enable_allocator (enable : bool) (buf_count : Z) (h : ImageHandler)
  : bool * ImageHandler :=
  (true,
   mkHandler (_need_configure h) enable (_callback h) (_out_video_info h)
             (_allocator h) buf_count (_name h)).

(** A call [enable_allocator (enable)]: the header's default argument,
    [uint32_t buf_count = XCAM_DEFAULT_HANDLER_BUF_CAP], is filled in at
    the call site. *)
Definition enable_allocator_default (enable : bool) (h : ImageHandler)
  : bool * ImageHandler :=
  enable_allocator enable XCAM_DEFAULT_HANDLER_BUF_CAP h.

(** Modelled from the spec: the constructor [ImageHandler (name)], defined
    in image_handler.cpp: a stage starts unconfigured, with no callback,
    no allocator and the default capacity.  The spec does not say whether
    self-allocation starts enabled, so the switch is an argument here. *)
Definition new_ImageHandler (name : SmartPtr string) (self_alloc : bool)
           (info : VideoBufferInfo) : ImageHandler :=
  mkHandler true self_alloc NULL info NULL
            XCAM_DEFAULT_HANDLER_BUF_CAP name.

(** The extension points a concrete stage supplies (the pure virtual
    functions of the header) and the operations consumed from the
    external collaborators (section 6 of the spec). *)
Class Extern : Type := mkExtern {
  (* virtual XCamReturn configure_resource (param) = 0 *)
  configure_resource : Parameters -> X -> XCamReturn * X;
  (* virtual SmartPtr<BufferPool> create_allocator () = 0 *)
  create_allocator : X -> SmartPtr Pool * X;
  (* virtual XCamReturn start_work (param) = 0 *)
  start_work : Parameters -> X -> WorkResult * X;
  (* the synchronous-wait point of section 5 of the spec: blocks until the
     submitted work of param is over and gives its status *)
  await_work : Parameters -> X -> XCamReturn * X;
  (* buffer allocator: reserve (format, count) -> success/failure *)
  pool_reserve : VideoBufferInfo -> Z -> Pool -> bool * Pool;
  (* buffer allocator: acquire () -> buffer-or-absent *)
  pool_get_buffer : Pool -> SmartPtr VideoBuffer * Pool
}.

(** The stage together with what surrounds it: the external state, the
    asynchronous work submitted and not yet known to be over (oldest
    first), and the calls received so far by the callbacks (oldest
    first). *)
Record World : Type := mkWorld {
  handler : ImageHandler;
  ext : X;
  in_flight : list Parameters;
  notified : list Notification
}.

Definition with_handler (h : ImageHandler) (w : World) : World :=
  mkWorld h (ext w) (in_flight w) (notified w).

Definition with_ext (x : X) (w : World) : World :=
  mkWorld (handler w) x (in_flight w) (notified w).

Definition with_in_flight (l : list Parameters) (w : World) : World :=
  mkWorld (handler w) (ext w) l (notified w).

Definition with_notified (l : list Notification) (w : World) : World :=
  mkWorld (handler w) (ext w) (in_flight w) l.

End Stage.

Arguments ImageHandler : clear implicits.
Arguments Extern : clear implicits.
Arguments World : clear implicits.

End Handler.
Export Handler.

(** ** ImageHandler: the entry point, drain and teardown

    The bodies of [execute_buffer], [execute_status_check], [configure_rest],
    [reserve_buffers], [get_free_buf], [finish] and [terminate] are in
    image_handler.cpp, which is not among the sources; the header only
    declares them.  They are written here from sections 4.3 to 4.4 of the
    spec, over the data members the header declares.  The answer
    invalid-state that the spec gives to a call after [terminate] has no
    counterpart here: no declared member records that [terminate] was
    called. *)

Module Stage.

Section Ops.
Context {Pool X : Type} {E : Extern Pool X}.

Abbreviation Handler := (ImageHandler Pool).
Abbreviation World := (World Pool X).

(** The calls the callback [c] receives for one report: one when [c] is
    registered, none when it is null. *)
Definition told (c : SmartPtr Callback) (params : SmartPtr Parameters)
           (error : XCamReturn) : list Notification :=
  match c with
  | Some cb => [mkNote cb params error]
  | None => []
  end.

(** Modelled from the spec: [execute_status_check (params, error)], the
    funnelling step of section 4.3: the registered callback, if any, is
    called once with the status; with no callback nothing is called. *)
Definition execute_status_check (params : SmartPtr Parameters) (error : XCamReturn)
           (w : World) : World :=
  match get_callback (handler w) with
  | Some cb => with_notified (notified w ++ [mkNote cb params error]) w
  | None => w
  end.

(** The status is reported through the callback and returned. *)
Definition funnel (params : SmartPtr Parameters) (error : XCamReturn) (w : World)
  : XCamReturn * SmartPtr Parameters * World :=
  (error, params, execute_status_check params error w).

(** Modelled from the spec: [reserve_buffers (info, count)]: the
    allocator's capacity is reserved against a format. *)
Definition reserve_buffers (info : VideoBufferInfo) (count : Z) (pool : Pool)
  : XCamReturn * Pool :=
  let '(ok, pool') := pool_reserve info count pool in
  (if ok then XCAM_RETURN_NO_ERROR else ConfigurationFailed, pool').

(** Modelled from the spec: [configure_rest ()], the second half of the
    configuring transition of section 4.4: with self-managed allocation
    the allocator is built by the extension point and its capacity is
    reserved against the output format; a failure leaves the stage as it
    was. *)
Definition configure_rest (h : Handler) (x : X) : XCamReturn * Handler * X :=
  if _enable_allocator h then
    let '(a, x1) := create_allocator x in
    match a with
    | None => (ConfigurationFailed, h, x1)
    | Some pool =>
        let '(r, pool') :=
          reserve_buffers (get_out_video_info h) (_buf_capacity h) pool in
        if is_ok r then (XCAM_RETURN_NO_ERROR, with_allocator (Some pool') h, x1)
        else (r, h, x1)
    end
  else (XCAM_RETURN_NO_ERROR, h, x).

(** Modelled from the spec: the configuring transition of section 4.4: the
    stage-specific configuration is called with the parameters of the
    current call; [_need_configure] is cleared only when both halves
    succeed, so a failed configuration is tried again by the next call. *)
Definition configure (params : Parameters) (w : World) : XCamReturn * World :=
  let '(r, x1) := configure_resource params (ext w) in
  if is_ok r then
    let '(r2, h2, x2) := configure_rest (handler w) x1 in
    if is_ok r2
    then (XCAM_RETURN_NO_ERROR,
          with_ext x2 (with_handler (with_need_configure false h2) w))
    else (r2, with_ext x2 w)
  else (ConfigurationFailed, with_ext x1 w).

(** Modelled from the spec: [get_free_buf ()]: a buffer of the private
    allocator, or null when there is no allocator or no free buffer. *)
Definition get_free_buf (h : Handler) : SmartPtr VideoBuffer * Handler :=
  match get_allocator h with
  | Some pool =>
      let '(b, pool') := pool_get_buffer pool in
      (b, with_allocator (Some pool') h)
  | None => (NULL, h)
  end.

(** Step 3 of the entry point: the work routine is called; when it only
    submitted the work, a synchronous call waits for its end, and an
    asynchronous call returns with the work in flight. *)
Definition run_work (params : Parameters) (sync : bool) (w : World)
  : XCamReturn * SmartPtr Parameters * World :=
  let '(r, x1) := start_work params (ext w) in
  match r with
  | Finished st => funnel (Some params) st (with_ext x1 w)
  | Enqueued =>
      if sync then
        let '(st, x2) := await_work params x1 in
        funnel (Some params) st (with_ext x2 w)
      else
        (XCAM_RETURN_NO_ERROR, Some params,
         with_in_flight (in_flight w ++ [params]) (with_ext x1 w))
  end.

(** Step 2 of the entry point, then step 3. *)
Definition allocate_and_work (params : Parameters) (sync : bool) (w : World)
  : XCamReturn * SmartPtr Parameters * World :=
  if _enable_allocator (handler w) && negb (ptr (out_buf params)) then
    let '(b, h1) := get_free_buf (handler w) in
    if ptr b then run_work (set_out_buf params b) sync (with_handler h1 w)
    else funnel (Some params) ResourceExhausted (with_handler h1 w)
  else run_work params sync w.

(** Modelled from the spec: [execute_buffer (params, sync)], the entry
    point [process (params, synchronous)] of section 4.4.  [params] is the
    [SmartPtr<Parameters>] of the header: a null pointer, and parameters
    without an input buffer (the one reference that section 3 does not let
    be null), are answered with invalid-parameter.  The result is the
    returned status, the parameters as the call leaves them (the output
    buffer may have been filled in) and the world after the call. *)
Definition execute_buffer (params : SmartPtr Parameters) (sync : bool) (w : World)
  : XCamReturn * SmartPtr Parameters * World :=
  match params with
  | None => funnel NULL InvalidParameter w
  | Some p =>
      if negb (ptr (in_buf p)) then funnel params InvalidParameter w
      else if _need_configure (handler w) then
        let '(r, w1) := configure p w in
        if is_ok r then allocate_and_work p sync w1
        else funnel params r w1
      else allocate_and_work p sync w
  end.

(** Modelled from the spec: the completion-notification context of
    section 5 detects that the [i]-th work in flight is over, with status
    [st], and funnels it to the callback; a notice that matches no work
    in flight is dropped. *)
Definition work_completed (i : nat) (st : XCamReturn) (w : World) : World :=
  match in_flight w !! i with
  | Some params =>
      execute_status_check (Some params) st
        (with_in_flight (delete i (in_flight w)) w)
  | None => w
  end.

(** The drain loop of [finish]: every listed work is waited for and its
    completion is funnelled. *)
Fixpoint drain (pending : list Parameters) (w : World) : World :=
  match pending with
  | [] => w
  | params :: rest =>
      let '(st, x1) := await_work params (ext w) in
      drain rest (execute_status_check (Some params) st (with_ext x1 w))
  end.

(** Modelled from the spec: [finish ()], the drain of section 4.4: pending
    completions are flushed before it returns; whatever their statuses,
    the call itself succeeds (section 7). *)
Definition finish (w : World) : XCamReturn * World :=
  (XCAM_RETURN_NO_ERROR, drain (in_flight w) (with_in_flight [] w)).

(** Modelled from the spec: [terminate ()], the teardown of section 4.4:
    the private allocator, if any, is released; the call succeeds in every
    state (section 7). *)
Definition terminate (w : World) : XCamReturn * World :=
  let h := handler w in
  let h1 := if ptr (get_allocator h) then with_allocator NULL h else h in
  (XCAM_RETURN_NO_ERROR, with_handler h1 w).

(** The two ways an entry-point call can end, seen from a world [w] whose
    callback is [c]: its outcome is known, [c] was told the returned status
    once and nothing was added to the works in flight; or, for an
    asynchronous call only, the work routine reported [Enqueued] for the
    parameters, the call returned success, nothing was told yet and the
    parameters joined the works in flight. *)
Definition call_effect (c : SmartPtr Callback) (sync : bool) (w : World)
           (r : XCamReturn * SmartPtr Parameters * World) : Prop :=
  (in_flight (snd r) = in_flight w /\
   notified (snd r) = notified w ++ told c (snd (fst r)) (fst (fst r)))
  \/
  (sync = false /\ fst (fst r) = XCAM_RETURN_NO_ERROR /\
   notified (snd r) = notified w /\
   exists (q : Parameters) (x : X),
     snd (fst r) = Some q /\ fst (start_work q x) = Enqueued /\
     in_flight (snd r) = in_flight w ++ [q]).

(** A stage that still needs its configuration holds no allocator. *)
Definition bare (h : Handler) : Prop :=
  _need_configure h = true -> get_allocator h = NULL.

(** *** Runs *)

(** What happens to a stage: calls of the entry point by the producer,
    completion notices from the asynchronous facility, drains and
    teardown. *)
Inductive Event : Type :=
| EvExecute (params : SmartPtr Parameters) (sync : bool)
| EvCompleted (i : nat) (st : XCamReturn)
| EvFinish
| EvTerminate.

Definition step (ev : Event) (w : World) : World :=
  match ev with
  | EvExecute params sync => snd (execute_buffer params sync w)
  | EvCompleted i st => work_completed i st w
  | EvFinish => snd (finish w)
  | EvTerminate => snd (terminate w)
  end.

Definition run (evs : list Event) (w : World) : World :=
  fold_left (fun u ev => step ev u) evs w.

Definition is_execute (ev : Event) : bool :=
  match ev with EvExecute _ _ => true | _ => false end.

(** The number of entry-point calls of a run. *)
Definition calls (evs : list Event) : nat := length (List.filter is_execute evs).

(** A synchronous entry-point call. *)
Definition is_sync_call (ev : Event) : bool :=
  match ev with EvExecute _ sync => sync | _ => false end.

(** *** Histories *)

(** Everything a caller can do to a stage through its public interface. *)
Inductive Use : Type :=
| UseSetCallback (cb : SmartPtr Callback)
| UseSetOutVideoInfo (info : VideoBufferInfo)
| UseEnableAllocator (enable : bool) (buf_count : Z)
| UseEvent (ev : Event).

Definition use (u : Use) (w : World) : World :=
  match u with
  | UseSetCallback cb => with_handler (snd (set_callback cb (handler w))) w
  | UseSetOutVideoInfo info => with_handler (snd (set_out_video_info info (handler w))) w
  | UseEnableAllocator enable buf_count =>
      with_handler (snd (enable_allocator enable buf_count (handler w))) w
  | UseEvent ev => step ev w
  end.

Definition after (history : list Use) (w : World) : World :=
  fold_left (fun u a => use a u) history w.

(** A stage as its constructor leaves it, with nothing in flight and nothing
    told. *)
Definition new_stage (name : SmartPtr string) (self_alloc : bool)
           (info : VideoBufferInfo) (x : X) : World :=
  mkWorld (new_ImageHandler name self_alloc info) x [] [].

End Ops.

End Stage.
Export Stage.


(** ** tests/test-video-stabilization.cpp: [ensure_gpu_buffer_done] *)

Module VideoStabTest.

(** Arithmetic on [uint32_t] is modulo 2^32. *)
Definition wrap32 (z : Z) : Z := z mod 2 ^ 32.

(** The conversion of a [uint32_t] value to [int]: values from 2^31 on
    become negative. *)
Definition to_int (z : Z) : Z := if z <? 2 ^ 31 then z else z - 2 ^ 32.

(** [for (uint32_t i = start; ...; i++)] run for [n] rounds: the body gets
    the counter and the state; an undefined step ends the run. *)
Fixpoint for_upto {S : Type} (n : nat) (i : Z) (body : Z -> S -> option S) (s : S)
  : option S :=
  match n with
  | O => Some s
  | Datatypes.S n' =>
      match body i s with
      | Some s' => for_upto n' (i + 1) body s'
      | None => None
      end
  end.

(** [int mem_idx = info.offsets [index] + i * info.strides [index] + line_bytes - 1;]
    with [uint32_t line_bytes = planar.width * planar.pixel_bytes;].  The sum
    is computed on [uint32_t] (wrapping once at the end is wrapping at every
    operation) and converted to [int].  [None] when [index] is outside the
    arrays. *)
Definition mem_idx_of (info : VideoBufferInfo) (planar : VideoBufferPlanarInfo)
           (index i : Z) : option Z :=
  match offsets info !! Z.to_nat index, strides info !! Z.to_nat index with
  | Some offset, Some stride =>
      let line_bytes := wrap32 (planar_width planar * pixel_bytes planar) in
      Some (to_int (wrap32 (offset + i * stride + line_bytes - 1)))
  | _, _ => None
  end.

(** [if (memory[mem_idx] == 1) { memory[mem_idx] = 1; }] on the mapped
    bytes; [None] when [mem_idx] is outside the mapped memory. *)
Definition touch (memory : list Byte.byte) (mem_idx : Z) : option (list Byte.byte) :=
  if mem_idx <? 0 then None
  else
    match memory !! Z.to_nat mem_idx with
    | Some b =>
        if Byte.eqb b Byte.x01
        then Some (<[Z.to_nat mem_idx := Byte.x01]> memory)
        else Some memory
    | None => None
    end.

(** The body of the inner loop, for row [i] of plane [index]. *)
Definition probe_row (info : VideoBufferInfo) (planar : VideoBufferPlanarInfo)
           (index i : Z) (memory : list Byte.byte) : option (list Byte.byte) :=
  match mem_idx_of info planar index i with
  | Some mem_idx => touch memory mem_idx
  | None => None
  end.

Section Probe.
(** [VideoBufferInfo::get_planar_info (planar, index)] is defined outside
    these sources: it is given the plane description by reference and leaves
    in it what the loop then reads.  [planar0] is the description as its
    default constructor leaves it. *)
Variable get_planar_info :
  VideoBufferInfo -> VideoBufferPlanarInfo -> Z -> VideoBufferPlanarInfo.
Variable planar0 : VideoBufferPlanarInfo.

(** The body of the outer loop, for plane [index]; the state is the plane
    description, which lives across the rounds, and the mapped bytes. *)
Definition probe_plane (info : VideoBufferInfo) (index : Z)
           (s : VideoBufferPlanarInfo * list Byte.byte)
  : option (VideoBufferPlanarInfo * list Byte.byte) :=
  let planar := get_planar_info info (fst s) index in
  match for_upto (Z.to_nat (planar_height planar)) 0
                 (probe_row info planar index) (snd s) with
  | Some memory => Some (planar, memory)
  | None => None
  end.

(** [static void ensure_gpu_buffer_done (SmartPtr<BufferProxy> buf)]: the
    buffer after the call, or [None] when the run reads or writes outside the
    mapped memory or the arrays of the description. *)
Definition ensure_gpu_buffer_done (buf : VideoBuffer) : option VideoBuffer :=
  let info := video_info buf in
  match for_upto (Z.to_nat (components info)) 0 (probe_plane info)
                 (planar0, memory buf) with
  | Some s => Some (mkBuf info (snd s))
  | None => None
  end.
End Probe.

(** A small NV12 picture, 4 by 2: a luma plane of two rows of four bytes and
    a chroma plane of one row of four bytes; the last byte of the first luma
    row holds 1. *)
Definition nv12_4x2 : VideoBufferInfo := mkInfo 842094158 4 2 2 [4; 4] [0; 8].

Definition nv12_planes (info : VideoBufferInfo) (_ : VideoBufferPlanarInfo)
           (index : Z) : VideoBufferPlanarInfo :=
  if index =? 0 then mkPlanar (width info) (height info) 1
  else mkPlanar (width info / 2) (height info / 2) 2.

Definition small_frame : VideoBuffer :=
  mkBuf nv12_4x2
        [Byte.x10; Byte.x11; Byte.x12; Byte.x01;
         Byte.x20; Byte.x21; Byte.x22; Byte.x23;
         Byte.x80; Byte.x81; Byte.x82; Byte.x83].

End VideoStabTest.
Export VideoStabTest.


(** ** A scripted stage, to run the model

    A concrete stage whose extension points replay scripts: the statuses
    [configure_resource] gives call after call, the results of [start_work],
    and the statuses the asynchronous facility reports.  Its allocator is a
    count of free buffers. *)

Module Scripted.

Record Script : Type := mkScript {
  cfg_script : list XCamReturn;
  work_script : list WorkResult;
  wait_script : list XCamReturn
}.

Definition nv12_1080p : VideoBufferInfo :=
  mkInfo 842094158 1920 1080 2 [1920; 1920] [0; 2073600].

Definition blank : VideoBuffer := mkBuf nv12_1080p [].

#[export] Instance scripted : Extern nat Script := {|
  configure_resource := fun _ x =>
    (hd XCAM_RETURN_NO_ERROR (cfg_script x),
     mkScript (tl (cfg_script x)) (work_script x) (wait_script x));
  create_allocator := fun x => (Some 0%nat, x);
  start_work := fun _ x =>
    (hd (Finished XCAM_RETURN_NO_ERROR) (work_script x),
     mkScript (cfg_script x) (tl (work_script x)) (wait_script x));
  await_work := fun _ x =>
    (hd XCAM_RETURN_NO_ERROR (wait_script x),
     mkScript (cfg_script x) (work_script x) (tl (wait_script x)));
  pool_reserve := fun _ count _ => (true, Z.to_nat count);
  pool_get_buffer := fun pool =>
    match pool with
    | O => (NULL, O)
    | S n => (Some blank, n)
    end
|}.

(** A fresh stage in front of a script. *)
Definition fresh (self_alloc : bool) (x : Script) : World nat Script :=
  new_stage (Some "stage") self_alloc nv12_1080p x.

Definition listener : Callback := mkCallback 1.

Definition with_listener (c : SmartPtr Callback) (w : World nat Script)
  : World nat Script :=
  with_handler (snd (set_callback c (handler w))) w.

(** A frame with no output buffer yet. *)
Definition frame : Parameters := new_Parameters (Some blank) NULL.

(** The class hierarchy the test program relies on: a [DevicePose] is a
    [MetaData], and everything attached is a [MetaBase]. *)
Definition pose_hierarchy (c t : ClassId) : bool :=
  String.eqb c t
  || (String.eqb c "DevicePose" && String.eqb t "MetaData")
  || String.eqb t "MetaBase".

Definition pose1 : MetaBase := mkMeta 4096 "DevicePose".
Definition pose2 : MetaBase := mkMeta 8192 "DevicePose".

End Scripted.


(** ** tests/test-video-stabilization.cpp: [read_device_pose] *)

Module PoseFile.

(** [char tokens[] = "\t ,\r\n";]: tab, space, comma, carriage return and
    line feed separate the numbers. *)
Definition is_delim (c : Byte.byte) : bool :=
  Byte.eqb c Byte.x09 || Byte.eqb c Byte.x20 || Byte.eqb c Byte.x2c
  || Byte.eqb c Byte.x0d || Byte.eqb c Byte.x0a.

(** The C string held by the buffer: the bytes before the first NUL (the
    function closes the buffer with [ptr[size] = 0]). *)
Fixpoint c_str (buf : list Byte.byte) : list Byte.byte :=
  match buf with
  | [] => []
  | c :: rest => if Byte.eqb c Byte.x00 then [] else c :: c_str rest
  end.

(** The tokens that [strtok (ptr, tokens)] and then [strtok (NULL, tokens)]
    give until the answer is [NULL]: the maximal runs of bytes that are not
    separators, in order.  [cur] is the run being read, last byte first. *)
Fixpoint strtok_all (cur : list Byte.byte) (s : list Byte.byte)
  : list (list Byte.byte) :=
  match s with
  | [] => match cur with [] => [] | _ => [rev cur] end
  | c :: rest =>
      if is_delim c then
        match cur with
        | [] => strtok_all [] rest
        | _ => rev cur :: strtok_all [] rest
        end
      else strtok_all (c :: cur) rest
  end.

(** [INT_MAX] for a 32-bit [int]. *)
Definition INT_MAX : Z := 2 ^ 31 - 1.

Section Pose.
(** [Num] stands for the values of C's [float]; [strtof] and the scaling of
    the time stamp, [num * 1000000] converted to [int64_t], are taken as
    given.  [orient_size] and [trans_size] are the lengths of the arrays of
    [DevicePose], which the function gets from [sizeof]; [pose0] is a pose as
    [new DevicePose ()] leaves it.  The structure is declared outside these
    sources. *)
Context {Num : Type}.

(** [DevicePose]: [double orientation[]], [double translation[]] and
    [int64_t timestamp]. *)
Record DevicePose : Type := mkPose {
  orientation : list Num;
  translation : list Num;
  timestamp : Z
}.

Variable strtof : list Byte.byte -> Num.
Variable usec_of : Num -> Z.
Variable orient_size trans_size : Z.
Variable pose0 : DevicePose.

(** [array[x] = num] on a C array: undefined outside the array. *)
Definition array_set (a : list Num) (x : Z) (num : Num) : option (list Num) :=
  if (0 <=? x) && (x <? Z.of_nat (length a))
  then Some (<[Z.to_nat x := num]> a)
  else None.

(** The three-way branch of the loop body on the position [x] in the
    record: a store through [data] (undefined when [data] is null), and
    [pose_list.push_back (data)] after the time stamp.  The pushed pose is
    not written again: the next store comes after [x == 0] has replaced
    [data] by a new object. *)
Definition store (x : Z) (num : Num) (data : SmartPtr DevicePose)
           (pose_list : list DevicePose)
  : option (SmartPtr DevicePose * list DevicePose) :=
  if x <? orient_size then
    match data with
    | Some d =>
        match array_set (orientation d) x num with
        | Some o => Some (Some (mkPose o (translation d) (timestamp d)), pose_list)
        | None => None
        end
    | None => None
    end
  else if x <? orient_size + trans_size then
    match data with
    | Some d =>
        match array_set (translation d) (x - orient_size) num with
        | Some t => Some (Some (mkPose (orientation d) t (timestamp d)), pose_list)
        | None => None
        end
    | None => None
    end
  else if x =? orient_size + trans_size then
    match data with
    | Some d =>
        let d' := mkPose (orientation d) (translation d) (usec_of num) in
        Some (Some d', pose_list ++ [d'])
    | None => None
    end
  else Some (data, pose_list).

(** [while (str_num != NULL) { ... }] over the tokens still to come.
    [count % members] and [count / members] are computed on [uint32_t]
    ([members] is one) and stored in [int]s; [++count] beyond [INT_MAX] is
    undefined.  The result is [count] and the list when the loop is left. *)
Fixpoint pose_loop (members entries : Z) (toks : list (list Byte.byte))
         (count : Z) (data : SmartPtr DevicePose) (pose_list : list DevicePose)
  : option (Z * list DevicePose) :=
  match toks with
  | [] => Some (count, pose_list)
  | str_num :: rest =>
      let num := strtof str_num in
      let x := to_int (wrap32 count mod members) in
      let y := to_int (wrap32 count / members) in
      if y >=? entries then Some (count, pose_list)
      else
        let data1 := if x =? 0 then Some pose0 else data in
        match store x num data1 pose_list with
        | Some (data2, pose_list2) =>
            if count + 1 >? INT_MAX then None
            else pose_loop members entries rest (count + 1) data2 pose_list2
        | None => None
        end
  end.

(** [int read_device_pose (const char *file, DevicePoseList &pose_list,
    uint32_t members)], once the file is open and read: [file] is its
    content, [size] its length.  The result is the returned count and the
    list after the call; [None] when the run is undefined (a division by
    [members == 0], a store outside an array or through a null pointer, an
    overflow of [count]).  What happens when the file cannot be opened is
    decided by a macro of test_common.h, outside these sources. *)
Definition read_device_pose (file : list Byte.byte) (pose_list : list DevicePose)
           (members : Z) : option (Z * list DevicePose) :=
  let size := Z.of_nat (length file) in
  if members =? 0 then None
  else
    let entries := to_int (wrap32 (size / members)) in
    match pose_loop members entries (strtok_all [] (c_str file)) 0 NULL pose_list with
    | Some (count, pose_list') => Some (to_int (wrap32 count / members), pose_list')
    | None => None
    end.

(** *** What the file means *)

(** The pose written in a complete record: the first [orient_size] numbers,
    the next [trans_size] numbers, and the number after them as the time
    stamp. *)
Definition pose_of_record (rec : list (list Byte.byte)) : DevicePose :=
  mkPose (map strtof (take (Z.to_nat orient_size) rec))
         (map strtof (take (Z.to_nat trans_size) (drop (Z.to_nat orient_size) rec)))
         (match rec !! Z.to_nat (orient_size + trans_size) with
          | Some tok => usec_of (strtof tok)
          | None => timestamp pose0
          end).

(** The pose under construction after the tokens [pre] of a record. *)
Definition pose_after (pre : list (list Byte.byte)) : DevicePose :=
  mkPose (map strtof (take (Z.to_nat orient_size) pre)
          ++ drop (length pre) (orientation pose0))
         (map strtof (take (Z.to_nat trans_size) (drop (Z.to_nat orient_size) pre))
          ++ drop (length pre - Z.to_nat orient_size) (translation pose0))
         (timestamp pose0).

End Pose.

(** The first complete records of [m] tokens each, at most [limit] of
    them; an incomplete tail is left out. *)
Fixpoint records {A : Type} (limit m : nat) (toks : list A) : list (list A) :=
  match limit with
  | O => []
  | S limit' =>
      if (m <=? length toks)%nat
      then take m toks :: records limit' m (drop m toks)
      else []
  end.

(** All the complete records of a token list. *)
Definition all_records {A : Type} (m : nat) (toks : list A) : list (list A) :=
  records (length toks) m toks.

Arguments DevicePose : clear implicits.

(** A pose file of one complete record of eight numbers and the beginning
    of a second one; numbers are kept as their text. *)
Definition two_lines : list Byte.byte :=
  String.list_byte_of_string "1 2 3 4, 5 6 7	8
9 10".

Definition blank_pose : DevicePose (list Byte.byte) :=
  mkPose (replicate 4 []) (replicate 3 []) 0.

Definition text_length (tok : list Byte.byte) : Z := Z.of_nat (length tok).

End PoseFile.
Export PoseFile.


(** * Properties *)

(** ** The metadata container of [Parameters] *)

Section MetaProps.
Variable derives : ClassId -> ClassId -> bool.

Lemma ptr_true {T : Type} (p : SmartPtr T) : ptr p = true <-> exists o, p = Some o.
Proof.
  destruct p as [o|]; simpl; split.
  - intros _. exists o. reflexivity.
  - reflexivity.
  - discriminate.
  - intros [o Ho]. discriminate.
Qed.

Lemma ptr_false {T : Type} (p : SmartPtr T) : ptr p = false <-> p = None.
Proof. destruct p; simpl; split; congruence. Qed.

(** A cast gives back the object it was applied to, or null. *)
Lemma dynamic_cast_ptr_Some (T : ClassId) (p : SmartPtr MetaBase) (m : MetaBase) :
  dynamic_cast_ptr derives T p = Some m <->
  p = Some m /\ derives (meta_class m) T = true.
Proof.
  unfold dynamic_cast_ptr. destruct p as [o|]; [|split; [discriminate|intros [? _]; discriminate]].
  destruct (derives (meta_class o) T) eqn:Hd; split.
  - intros [= ->]. auto.
  - intros [[= ->] _]. reflexivity.
  - discriminate.
  - intros [[= ->] Hm]. congruence.
Qed.

Lemma find_meta_from_cons (T : ClassId) (i : SmartPtr MetaBase) (l : MetaBaseList) :
  find_meta_from derives T (i :: l) =
  match dynamic_cast_ptr derives T i with
  | Some m => Some m
  | None => find_meta_from derives T l
  end.
Proof. simpl. destruct (dynamic_cast_ptr derives T i); reflexivity. Qed.

(** The scan over a concatenation: the front part is searched first. *)
Lemma find_meta_from_app (T : ClassId) (l1 l2 : MetaBaseList) :
  find_meta_from derives T (l1 ++ l2) =
  match find_meta_from derives T l1 with
  | Some m => Some m
  | None => find_meta_from derives T l2
  end.
Proof.
  induction l1 as [|i l1 IH]; [reflexivity|].
  rewrite <- app_comm_cons, !find_meta_from_cons.
  destruct (dynamic_cast_ptr derives T i); [reflexivity|exact IH].
Qed.

Lemma find_meta_from_first (T : ClassId) (l : MetaBaseList) :
  match find_meta_from derives T l with
  | Some m =>
      exists before after,
        l = before ++ Some m :: after /\
        derives (meta_class m) T = true /\
        Forall (fun x => dynamic_cast_ptr derives T x = None) before
  | None => Forall (fun x => dynamic_cast_ptr derives T x = None) l
  end.
Proof.
  induction l as [|i l IH]; [constructor|].
  rewrite find_meta_from_cons.
  destruct (dynamic_cast_ptr derives T i) as [m|] eqn:Hc.
  - apply dynamic_cast_ptr_Some in Hc as [-> Hd].
    exists [], l. repeat split; [assumption|constructor].
  - destruct (find_meta_from derives T l) as [m|].
    + destruct IH as (before & after & -> & Hd & Hb).
      exists (i :: before), after. repeat split; [assumption|].
      constructor; assumption.
    + constructor; assumption.
Qed.

(** Conversely, an item that satisfies the type is returned as soon as nothing
    before it does. *)
Lemma find_meta_from_split (T : ClassId) (before after : MetaBaseList) (m : MetaBase) :
  Forall (fun x => dynamic_cast_ptr derives T x = None) before ->
  derives (meta_class m) T = true ->
  find_meta_from derives T (before ++ Some m :: after) = Some m.
Proof.
  intros Hb Hd. induction Hb as [|x before Hx _ IH].
  - simpl. rewrite Hd. reflexivity.
  - rewrite <- app_comm_cons, find_meta_from_cons, Hx. exact IH.
Qed.

(** C3 -- [add_meta] with a null item returns [false] and leaves the
    parameters, hence the container, exactly as they were; with a non-null
    item it returns [true] and the container is the old sequence with the
    item appended at the end. *)
Theorem add_meta_null_rejected_else_appended (p : Parameters) :
  add_meta NULL p = (false, p) /\
  forall item : MetaBase,
    add_meta (Some item) p =
    (true, {| in_buf := in_buf p; out_buf := out_buf p;
              _metas := _metas p ++ [Some item] |}).
Proof. split; [|intros item]; reflexivity. Qed.

(** C4 -- [find_meta] scans the container from the first attached item on.
    When it returns an item, the container splits around that item: the item
    satisfies the requested type and nothing attached before it does; when it
    returns null, nothing attached satisfies the requested type. *)
Theorem find_meta_earliest_match (T : ClassId) (p : Parameters) :
  match find_meta derives T p with
  | Some m =>
      exists before after,
        _metas p = before ++ Some m :: after /\
        derives (meta_class m) T = true /\
        Forall (fun x => dynamic_cast_ptr derives T x = None) before
  | None => Forall (fun x => dynamic_cast_ptr derives T x = None) (_metas p)
  end.
Proof. unfold find_meta. apply find_meta_from_first. Qed.

(** C5, as amended -- after [add_meta (item)] with a non-null item,
    [find_meta] for a type the item satisfies returns the earliest attached
    item of that type: the item just added when nothing attached before
    satisfies the type, and otherwise the one [find_meta] already returned
    before the addition. *)
Theorem add_meta_then_find_meta (p : Parameters) (item : MetaBase) (T : ClassId) :
  derives (meta_class item) T = true ->
  find_meta derives T (snd (add_meta (Some item) p)) =
  match find_meta derives T p with
  | Some earlier => Some earlier
  | None => Some item
  end.
Proof.
  intros Hd. unfold find_meta. simpl. unfold push_back.
  rewrite find_meta_from_app.
  destruct (find_meta_from derives T (_metas p)); [reflexivity|].
  simpl. rewrite Hd. reflexivity.
Qed.

Lemma add_meta_keeps_non_null (meta : SmartPtr MetaBase) (p : Parameters) :
  Forall (fun m => ptr m = true) (_metas p) ->
  Forall (fun m => ptr m = true) (_metas (snd (add_meta meta p))).
Proof.
  intros H. unfold add_meta. destruct meta as [o|]; simpl; [|exact H].
  unfold push_back. apply Forall_app. split; [exact H|].
  constructor; [reflexivity|constructor].
Qed.

Lemma add_all_keeps_non_null (items : list (SmartPtr MetaBase)) (p : Parameters) :
  Forall (fun m => ptr m = true) (_metas p) ->
  Forall (fun m => ptr m = true) (_metas (add_all items p)).
Proof.
  revert p. induction items as [|m items IH]; intros p H; [exact H|].
  simpl. apply IH. apply add_meta_keeps_non_null. exact H.
Qed.

(** C6 -- whatever pointers, null or not, a sequence of [add_meta] calls is
    given, starting from freshly constructed parameters, no element of the
    stored sequence is null. *)
Theorem metas_never_null (items : list (SmartPtr MetaBase))
        (i o : SmartPtr VideoBuffer) :
  Forall (fun m => ptr m = true) (_metas (add_all items (new_Parameters i o))).
Proof. apply add_all_keeps_non_null. constructor. Qed.

End MetaProps.

(** C5, the witness: the second pose is found after it is attached to
    parameters that hold no metadata yet. *)
Lemma add_meta_then_find_meta_witness :
  find_meta Scripted.pose_hierarchy "MetaData"
            (snd (add_meta (Some Scripted.pose2) Scripted.frame)) =
  match find_meta Scripted.pose_hierarchy "MetaData" Scripted.frame with
  | Some earlier => Some earlier
  | None => Some Scripted.pose2
  end.
Proof.
  apply (add_meta_then_find_meta Scripted.pose_hierarchy Scripted.frame
           Scripted.pose2 "MetaData").
  reflexivity.
Defined.

(** C5, as stated, fails: with one pose already attached, attaching a second
    one and asking for a pose gives back the first, not the one just
    added. *)
Lemma add_meta_then_find_meta_earlier_wins :
  ~ (forall (derives : ClassId -> ClassId -> bool) (p : Parameters)
            (item : MetaBase) (T : ClassId),
        derives (meta_class item) T = true ->
        find_meta derives T (snd (add_meta (Some item) p)) = Some item).
Proof.
  intros H.
  specialize (H Scripted.pose_hierarchy
                (snd (add_meta (Some Scripted.pose1) Scripted.frame))
                Scripted.pose2 "DevicePose"%string eq_refl).
  vm_compute in H. discriminate H.
Qed.

Example find_meta_two_poses :
  find_meta Scripted.pose_hierarchy "DevicePose"
    (add_all [NULL; Some Scripted.pose1; Some Scripted.pose2] Scripted.frame)
  = Some Scripted.pose1.
Proof. reflexivity. Qed.

Example find_meta_absent :
  find_meta Scripted.pose_hierarchy "Histogram"
    (add_all [Some Scripted.pose1; Some Scripted.pose2] Scripted.frame)
  = NULL.
Proof. reflexivity. Qed.

(** ** The stage: callback, allocator capacity *)

Section HandlerProps.
Context {Pool : Type}.

(** C7 -- a stage stores one callback: after two registrations in a row both
    calls have returned [true], [get_callback] gives the second one, and the
    stage is the one a single registration of the second would have left: the
    first registration leaves no trace. *)
Theorem set_callback_replaces (h : ImageHandler Pool) (cb1 cb2 : SmartPtr Callback) :
  let r1 := set_callback cb1 h in
  let r2 := set_callback cb2 (snd r1) in
  fst r1 = true /\ fst r2 = true /\
  get_callback (snd r2) = cb2 /\
  snd r2 = snd (set_callback cb2 h).
Proof. repeat split. Qed.

(** C9 -- [enable_allocator (enable)], called without a capacity, leaves the
    stage with a buffer capacity of 4 (and with the switch as given). *)
Theorem enable_allocator_default_capacity (enable : bool) (h : ImageHandler Pool) :
  _buf_capacity (snd (enable_allocator_default enable h)) = 4 /\
  _enable_allocator (snd (enable_allocator_default enable h)) = enable /\
  fst (enable_allocator_default enable h) = true.
Proof. repeat split. Qed.

Lemma new_ImageHandler_capacity (name : SmartPtr string) (sa : bool)
      (info : VideoBufferInfo) :
  _buf_capacity (new_ImageHandler (Pool := Pool) name sa info) = 4.
Proof. reflexivity. Qed.

End HandlerProps.

(** ** The stage: notifications of the callback *)

Section StageProps.
Context {Pool X : Type} {E : Extern Pool X}.

Abbreviation World' := (World Pool X).

Lemma told_length (c : SmartPtr Callback) (p : SmartPtr Parameters) (st : XCamReturn) :
  length (told c p st) = if ptr c then 1%nat else 0%nat.
Proof. destruct c; reflexivity. Qed.

(** What the funnelling step changes: the log of the callback, and only by
    the one call the registered callback receives. *)
Lemma execute_status_check_effect (p : SmartPtr Parameters) (st : XCamReturn)
      (w : World') :
  handler (execute_status_check p st w) = handler w /\
  ext (execute_status_check p st w) = ext w /\
  in_flight (execute_status_check p st w) = in_flight w /\
  notified (execute_status_check p st w) =
    notified w ++ told (get_callback (handler w)) p st.
Proof.
  unfold execute_status_check.
  destruct (get_callback (handler w)); simpl; repeat split.
  symmetry. apply app_nil_r.
Qed.

(** The configuring transition touches neither the callback, nor the works in
    flight, nor the log. *)
Lemma configure_frame (p : Parameters) (w : World') :
  get_callback (handler (snd (configure p w))) = get_callback (handler w) /\
  in_flight (snd (configure p w)) = in_flight w /\
  notified (snd (configure p w)) = notified w.
Proof.
  unfold configure, configure_rest, reserve_buffers.
  destruct (configure_resource p (ext w)) as [r x1].
  destruct (is_ok r); [|repeat split].
  destruct (_enable_allocator (handler w)); [|repeat split].
  destruct (create_allocator x1) as [[pool|] x2]; [|repeat split].
  destruct (pool_reserve _ _ pool) as [[|] pool']; repeat split.
Qed.

Lemma get_free_buf_callback (h : ImageHandler Pool) :
  get_callback (snd (get_free_buf h)) = get_callback h.
Proof.
  unfold get_free_buf. destruct (get_allocator h) as [pool|]; [|reflexivity].
  destruct (pool_get_buffer pool). reflexivity.
Qed.

Lemma funnel_effect (p : SmartPtr Parameters) (st : XCamReturn) (sync : bool)
      (w0 w : World') :
  in_flight w = in_flight w0 ->
  notified w = notified w0 ->
  get_callback (handler (snd (funnel p st w))) = get_callback (handler w) /\
  call_effect (get_callback (handler w)) sync w0 (funnel p st w).
Proof.
  intros Hf Hn. unfold call_effect, funnel. simpl.
  destruct (execute_status_check_effect p st w) as (Hh & _ & Hf' & Hn').
  rewrite Hh, Hf', Hn', Hf, Hn. split; [reflexivity|]. left. split; reflexivity.
Qed.

Lemma run_work_effect (p : Parameters) (sync : bool) (w0 w : World') :
  in_flight w = in_flight w0 ->
  notified w = notified w0 ->
  get_callback (handler (snd (run_work p sync w))) = get_callback (handler w) /\
  call_effect (get_callback (handler w)) sync w0 (run_work p sync w).
Proof.
  intros Hf Hn. unfold run_work.
  destruct (start_work p (ext w)) as [[st|] x1] eqn:Hwork.
  - apply (funnel_effect (Some p) st sync w0 (with_ext x1 w)); assumption.
  - destruct sync.
    + destruct (await_work p x1) as [st x2].
      apply (funnel_effect (Some p) st true w0 (with_ext x2 w)); assumption.
    + unfold call_effect. simpl. split; [reflexivity|]. right.
      rewrite Hf, Hn. repeat split.
      exists p, (ext w). rewrite Hwork. repeat split.
Qed.

Lemma allocate_and_work_effect (p : Parameters) (sync : bool) (w0 w : World') :
  in_flight w = in_flight w0 ->
  notified w = notified w0 ->
  get_callback (handler (snd (allocate_and_work p sync w))) = get_callback (handler w) /\
  call_effect (get_callback (handler w)) sync w0 (allocate_and_work p sync w).
Proof.
  intros Hf Hn. unfold allocate_and_work.
  destruct (_enable_allocator (handler w) && negb (ptr (out_buf p)));
    [|apply run_work_effect; assumption].
  pose proof (get_free_buf_callback (handler w)) as Hc.
  destruct (get_free_buf (handler w)) as [b h1]. simpl in Hc. rewrite <- Hc.
  destruct (ptr b).
  - apply (run_work_effect _ sync w0 (with_handler h1 w)); assumption.
  - apply (funnel_effect (Some p) ResourceExhausted sync w0 (with_handler h1 w));
      assumption.
Qed.

(** Every path through the entry point keeps the registration of the
    callback and ends in one of the two ways of [call_effect]. *)
Lemma execute_buffer_effect (p : SmartPtr Parameters) (sync : bool) (w : World') :
  get_callback (handler (snd (execute_buffer p sync w))) = get_callback (handler w) /\
  call_effect (get_callback (handler w)) sync w (execute_buffer p sync w).
Proof.
  unfold execute_buffer. destruct p as [p|]; [|apply funnel_effect; reflexivity].
  destruct (negb (ptr (in_buf p))); [apply funnel_effect; reflexivity|].
  destruct (_need_configure (handler w)).
  - destruct (configure_frame p w) as (Hc & Hf & Hn).
    destruct (configure p w) as [r w1]. simpl in Hc, Hf, Hn. rewrite <- Hc.
    destruct (is_ok r).
    + apply allocate_and_work_effect; assumption.
    + apply funnel_effect; assumption.
  - apply allocate_and_work_effect; reflexivity.
Qed.

(** A completion notice that matches a work in flight removes it and tells
    the callback once; one that matches nothing changes nothing. *)
Lemma work_completed_effect (i : nat) (st : XCamReturn) (w : World') :
  get_callback (handler (work_completed i st w)) = get_callback (handler w) /\
  match in_flight w !! i with
  | Some p =>
      in_flight (work_completed i st w) = delete i (in_flight w) /\
      notified (work_completed i st w) =
        notified w ++ told (get_callback (handler w)) (Some p) st
  | None => work_completed i st w = w
  end.
Proof.
  unfold work_completed. destruct (in_flight w !! i) as [p|]; [|split; reflexivity].
  destruct (execute_status_check_effect (Some p) st
              (with_in_flight (delete i (in_flight w)) w)) as (Hh & _ & Hf & Hn).
  rewrite Hh, Hf, Hn. repeat split.
Qed.

(** The drain tells the callback once per listed work and touches nothing
    else of the stage. *)
Lemma drain_effect (pending : list Parameters) (w : World') :
  handler (drain pending w) = handler w /\
  in_flight (drain pending w) = in_flight w /\
  exists added,
    notified (drain pending w) = notified w ++ added /\
    map note_params added =
      (if ptr (get_callback (handler w)) then map Some pending else []).
Proof.
  revert w. induction pending as [|p pending IH]; intros w.
  - simpl. repeat split. exists []. rewrite app_nil_r. split; [reflexivity|].
    destruct (ptr _); reflexivity.
  - simpl. destruct (await_work p (ext w)) as [st x1].
    destruct (execute_status_check_effect (Some p) st (with_ext x1 w))
      as (Hh & Hx & Hf & Hn).
    destruct (IH (execute_status_check (Some p) st (with_ext x1 w)))
      as (IHh & IHf & added & IHn & IHp).
    rewrite IHh, IHf, IHn, Hh, Hf, Hn. simpl. repeat split.
    exists (told (get_callback (handler w)) (Some p) st ++ added).
    rewrite app_assoc. split; [reflexivity|].
    rewrite map_app, IHp, Hh. simpl.
    destruct (get_callback (handler w)); reflexivity.
Qed.

(** One event: the registration of the callback stays; with a callback, the
    calls it received and the works in flight together grow by one for an
    entry-point call and not at all otherwise; with no callback nothing is
    told. *)
Lemma step_effect (ev : Event) (w : World') :
  get_callback (handler (step ev w)) = get_callback (handler w) /\
  (if ptr (get_callback (handler w)) then
     (length (notified (step ev w)) + length (in_flight (step ev w))
      = length (notified w) + length (in_flight w)
        + (if is_execute ev then 1 else 0))%nat
   else notified (step ev w) = notified w).
Proof.
  destruct ev as [p sync|i st| |]; simpl.
  - destruct (execute_buffer_effect p sync w) as [Hc He]. split; [exact Hc|].
    destruct He as [[Hf Hn]|(_ & _ & Hn & q & x & _ & _ & Hf)]; rewrite Hf, Hn.
    + destruct (get_callback (handler w)); simpl;
        [rewrite length_app; simpl; lia|apply app_nil_r].
    + destruct (ptr _); [rewrite length_app; simpl; lia|reflexivity].
  - destruct (work_completed_effect i st w) as [Hc He]. split; [exact Hc|].
    destruct (in_flight w !! i) as [p|] eqn:Hi.
    + destruct He as [Hf Hn]. rewrite Hf, Hn.
      pose proof (lookup_lt_Some _ _ _ Hi).
      destruct (get_callback (handler w)); simpl.
      * rewrite length_app, length_delete by eauto. simpl. lia.
      * apply app_nil_r.
    + rewrite He. destruct (ptr _); [lia|reflexivity].
  - destruct (drain_effect (in_flight w) (with_in_flight [] w))
      as (Hh & Hf & added & Hn & Hp).
    rewrite Hh, Hf, Hn. simpl in *. split; [reflexivity|].
    apply (f_equal length) in Hp. rewrite length_map in Hp.
    destruct (ptr _).
    + rewrite length_map in Hp. rewrite length_app. lia.
    + destruct added; [apply app_nil_r|discriminate Hp].
  - split.
    + destruct (ptr (get_allocator (handler w))); reflexivity.
    + destruct (ptr (get_callback (handler w))); [lia|reflexivity].
Qed.

Lemma calls_cons (ev : Event) (evs : list Event) :
  calls (ev :: evs) = ((if is_execute ev then 1 else 0) + calls evs)%nat.
Proof. unfold calls. simpl. destruct (is_execute ev); reflexivity. Qed.

Lemma run_effect (evs : list Event) (w : World') :
  get_callback (handler (run evs w)) = get_callback (handler w) /\
  (if ptr (get_callback (handler w)) then
     (length (notified (run evs w)) + length (in_flight (run evs w))
      = length (notified w) + length (in_flight w) + calls evs)%nat
   else notified (run evs w) = notified w).
Proof.
  revert w. induction evs as [|ev evs IH]; intros w.
  - simpl. split; [reflexivity|].
    destruct (ptr _); [unfold calls; simpl; lia|reflexivity].
  - change (run (ev :: evs) w) with (run evs (step ev w)).
    destruct (step_effect ev w) as (Hc & Hs).
    destruct (IH (step ev w)) as (IHc & IHs).
    rewrite Hc in IHc, IHs. split; [exact IHc|].
    destruct (ptr (get_callback (handler w))).
    + rewrite calls_cons. lia.
    + congruence.
Qed.


(** A synchronous entry-point call never leaves its work in flight. *)
Lemma sync_call_returns (p : SmartPtr Parameters) (w : World') :
  in_flight (snd (execute_buffer p true w)) = in_flight w.
Proof.
  destruct (execute_buffer_effect p true w) as [_ [[Hf _]|(Hs & _)]];
    [exact Hf|discriminate Hs].
Qed.

Lemma sync_run_nothing_in_flight (evs : list Event) (w : World') :
  forallb is_sync_call evs = true ->
  in_flight (run evs w) = in_flight w.
Proof.
  revert w. induction evs as [|ev evs IH]; intros w Hs; [reflexivity|].
  simpl in Hs. apply andb_prop in Hs as [Hev Hs].
  change (run (ev :: evs) w) with (run evs (step ev w)). rewrite (IH _ Hs).
  destruct ev as [p sync| | |]; try discriminate Hev. simpl in Hev. subst sync.
  apply sync_call_returns.
Qed.

(** For a sequence of synchronous entry-point calls on a stage with a
    callback, the callback has been called as many times as the entry
    point. *)
Corollary sync_calls_notified_once_each (evs : list Event) (w : World') (cb : Callback) :
  get_callback (handler w) = Some cb ->
  forallb is_sync_call evs = true ->
  length (notified (run evs w)) = (length (notified w) + length evs)%nat.
Proof.
  intros Hcb Hs.
  destruct (run_effect evs w) as (_ & Hl). rewrite Hcb in Hl. simpl in Hl.
  rewrite (sync_run_nothing_in_flight evs w Hs) in Hl.
  assert (calls evs = length evs) as Hc.
  { clear -Hs. induction evs as [|ev evs IH]; [reflexivity|].
    simpl in Hs. apply andb_prop in Hs as [Hev Hs]. rewrite calls_cons, IH by exact Hs.
    destruct ev; try discriminate Hev. reflexivity. }
  lia.
Qed.

End StageProps.


(** ** The stage: drain and teardown *)

Section TeardownProps.
Context {Pool X : Type} {E : Extern Pool X}.

Lemma run_work_handler (p : Parameters) (sync : bool) (w : World Pool X) :
  handler (snd (run_work p sync w)) = handler w.
Proof.
  unfold run_work. destruct (start_work p (ext w)) as [[st|] x1].
  - apply (execute_status_check_effect (Some p) st (with_ext x1 w)).
  - destruct sync; [|reflexivity]. destruct (await_work p x1) as [st x2].
    apply (execute_status_check_effect (Some p) st (with_ext x2 w)).
Qed.

Lemma funnel_handler (p : SmartPtr Parameters) (st : XCamReturn) (w : World Pool X) :
  handler (snd (funnel p st w)) = handler w.
Proof. apply (execute_status_check_effect p st w). Qed.

Lemma allocate_and_work_bare (p : Parameters) (sync : bool) (w : World Pool X) :
  bare (handler w) -> bare (handler (snd (allocate_and_work p sync w))).
Proof.
  intros Hb. unfold allocate_and_work.
  destruct (_enable_allocator (handler w) && negb (ptr (out_buf p)));
    [|rewrite run_work_handler; exact Hb].
  unfold get_free_buf. destruct (get_allocator (handler w)) as [pool|] eqn:Ha.
  - destruct (pool_get_buffer pool) as [b pool'].
    assert (bare (with_allocator (Some pool') (handler w))) as Hb'.
    { intros Hneed. simpl in Hneed. specialize (Hb Hneed).
      rewrite Ha in Hb. discriminate Hb. }
    destruct (ptr b); [rewrite run_work_handler|rewrite funnel_handler]; exact Hb'.
  - change (ptr (@NULL VideoBuffer)) with false. cbv iota beta.
    rewrite funnel_handler. exact Hb.
Qed.

(** The configuring transition is the only place where a stage gets its
    allocator, and it does so only when it clears [_need_configure]. *)
Lemma configure_bare (p : Parameters) (w : World Pool X) :
  bare (handler w) -> bare (handler (snd (configure p w))).
Proof.
  intros Hb. unfold configure, configure_rest, reserve_buffers.
  destruct (configure_resource p (ext w)) as [r x1].
  destruct (is_ok r); [|exact Hb].
  destruct (_enable_allocator (handler w)); [|simpl; intros Hn; discriminate Hn].
  destruct (create_allocator x1) as [[pool|] x2]; [|exact Hb].
  destruct (pool_reserve _ _ pool) as [[|] pool']; simpl;
    [intros Hn; discriminate Hn|exact Hb].
Qed.

Lemma execute_buffer_bare (p : SmartPtr Parameters) (sync : bool) (w : World Pool X) :
  bare (handler w) -> bare (handler (snd (execute_buffer p sync w))).
Proof.
  intros Hb. unfold execute_buffer.
  destruct p as [p|]; [|rewrite funnel_handler; exact Hb].
  destruct (negb (ptr (in_buf p))); [rewrite funnel_handler; exact Hb|].
  destruct (_need_configure (handler w)).
  - pose proof (configure_bare p w Hb) as Hc.
    destruct (configure p w) as [r w1]. simpl in Hc.
    destruct (is_ok r); [apply allocate_and_work_bare|rewrite funnel_handler]; exact Hc.
  - apply allocate_and_work_bare. exact Hb.
Qed.

Lemma step_bare (ev : Event) (w : World Pool X) :
  bare (handler w) -> bare (handler (step ev w)).
Proof.
  intros Hb. destruct ev as [p sync|i st| |]; simpl.
  - apply execute_buffer_bare. exact Hb.
  - unfold work_completed. destruct (in_flight w !! i) as [q|]; [|exact Hb].
    rewrite (proj1 (execute_status_check_effect (Some q) st _)). exact Hb.
  - rewrite (proj1 (drain_effect (in_flight w) (with_in_flight [] w))). exact Hb.
  - intros _. destruct (ptr (get_allocator (handler w))) eqn:Ha; simpl; [reflexivity|].
    apply ptr_false. exact Ha.
Qed.

Lemma after_bare (history : list Use) (w : World Pool X) :
  bare (handler w) -> bare (handler (after history w)).
Proof.
  revert w. induction history as [|u history IH]; intros w Hb; [exact Hb|].
  change (after (u :: history) w) with (after history (use u w)). apply IH.
  destruct u as [cb|info|enable n|ev]; [exact Hb..|apply step_bare; exact Hb].
Qed.


(** C8 -- in every world, [finish] and [terminate] return
    [XCAM_RETURN_NO_ERROR], whatever the statuses of the works [finish]
    drains and whether or not [terminate] finds an allocator to release. *)
Theorem finish_terminate_succeed (w : World Pool X) :
  fst (finish w) = XCAM_RETURN_NO_ERROR /\
  fst (terminate w) = XCAM_RETURN_NO_ERROR.
Proof. split; reflexivity. Qed.

(** [finish] leaves nothing in flight, and a second [finish] changes
    nothing. *)
Lemma finish_drains (w : World Pool X) :
  in_flight (snd (finish w)) = [] /\
  finish (snd (finish w)) = finish w.
Proof.
  unfold finish. simpl.
  destruct (drain_effect (in_flight w) (with_in_flight [] w)) as (_ & Hf & _).
  simpl in Hf. split; [exact Hf|].
  rewrite Hf. simpl. f_equal.
  destruct (drain (in_flight w) (with_in_flight [] w)) as [h x fl n].
  simpl in Hf. subst fl. reflexivity.
Qed.

End TeardownProps.

Section TeardownWitness.
Import Scripted.


End TeardownWitness.

(** ** The scenarios of the spec, run on the scripted stage *)

Section Scenarios.
Import Scripted.

Abbreviation heard st := (mkNote listener (Some frame) st).

(** Scenario A: the first configuration fails; the stage stays unconfigured,
    the callback hears of it once, and the next call configures again. *)
Example scenario_configure_retry :
  let w0 := with_listener (Some listener)
              (fresh false (mkScript [InvalidParameter] [] [])) in
  let w1 := run [EvExecute (Some frame) true] w0 in
  let w2 := run [EvExecute (Some frame) true] w1 in
  _need_configure (handler w1) = true /\
  notified w1 = [heard ConfigurationFailed] /\
  _need_configure (handler w2) = false /\
  notified w2 = [heard ConfigurationFailed; heard XCAM_RETURN_NO_ERROR].
Proof. repeat split. Qed.

(** Scenario B: a private allocator of two buffers; the third call that
    needs an output buffer reports exhaustion and the work routine is not
    called (its script still holds the third result). *)
Example scenario_pool_exhausted :
  let h := snd (enable_allocator true 2 (handler (fresh true (mkScript [] [] [])))) in
  let work := [Finished XCAM_RETURN_NO_ERROR; Finished XCAM_RETURN_NO_ERROR;
               Finished (AlgorithmFailure 9)] in
  let w0 := with_listener (Some listener)
              (with_handler h (fresh true (mkScript [] work []))) in
  let w3 := run [EvExecute (Some frame) true; EvExecute (Some frame) true;
                 EvExecute (Some frame) true] w0 in
  map note_error (notified w3) =
    [XCAM_RETURN_NO_ERROR; XCAM_RETURN_NO_ERROR; ResourceExhausted] /\
  work_script (ext w3) = [Finished (AlgorithmFailure 9)].
Proof. repeat split. Qed.

(** Scenario C: one synchronous call whose work succeeds: one call of the
    callback, with success, when the entry point returns. *)
Example scenario_sync_success :
  let w0 := with_listener (Some listener) (fresh false (mkScript [] [Enqueued] [])) in
  let r := execute_buffer (Some frame) true w0 in
  fst (fst r) = XCAM_RETURN_NO_ERROR /\
  notified (snd r) = [heard XCAM_RETURN_NO_ERROR] /\
  in_flight (snd r) = [] /\
  _need_configure (handler (snd r)) = false.
Proof. repeat split. Qed.

(** A null pointer, and parameters without an input buffer, are answered
    with invalid-parameter, told to the callback once; the stage is not
    configured for them. *)
Example scenario_null_parameters :
  let w0 := with_listener (Some listener) (fresh false (mkScript [] [] [])) in
  let r := execute_buffer NULL true w0 in
  let r' := execute_buffer (Some (new_Parameters NULL NULL)) false w0 in
  fst (fst r) = InvalidParameter /\
  notified (snd r) = [mkNote listener NULL InvalidParameter] /\
  fst (fst r') = InvalidParameter /\
  notified (snd r') = [mkNote listener (Some (new_Parameters NULL NULL)) InvalidParameter] /\
  _need_configure (handler (snd r)) = true.
Proof. repeat split. Qed.

(** [terminate] on a fresh stage, twice: nothing changes, and the next call
    configures the stage and works. *)
Example scenario_terminate_before_configure :
  let w0 := with_listener (Some listener)
              (fresh false (mkScript [XCAM_RETURN_NO_ERROR] [] [])) in
  let w2 := run [EvTerminate; EvTerminate] w0 in
  let w3 := run [EvExecute (Some frame) true] w2 in
  w2 = w0 /\
  notified w3 = [heard XCAM_RETURN_NO_ERROR] /\
  _need_configure (handler w3) = false.
Proof. repeat split. Qed.

(** An asynchronous call: nothing is told when the entry point returns with
    success; the callback hears the failure once, when the completion is
    noticed; a second notice for the same slot finds nothing and tells
    nothing. *)
Example scenario_async_completion :
  let w0 := with_listener (Some listener) (fresh false (mkScript [] [Enqueued] [])) in
  let r := execute_buffer (Some frame) false w0 in
  let w2 := run [EvCompleted 0 (AlgorithmFailure 3);
                 EvCompleted 0 (AlgorithmFailure 3)] (snd r) in
  fst (fst r) = XCAM_RETURN_NO_ERROR /\
  notified (snd r) = [] /\ in_flight (snd r) = [frame] /\
  notified w2 = [heard (AlgorithmFailure 3)] /\ in_flight w2 = [].
Proof. repeat split. Qed.

(** Without a callback nothing is told, whatever happens. *)
Example scenario_no_callback :
  let w0 := fresh false (mkScript [InvalidParameter] [Enqueued; Enqueued] [ResourceExhausted]) in
  notified (run [EvExecute (Some frame) true; EvExecute (Some frame) false;
                 EvExecute (Some frame) false; EvFinish; EvTerminate;
                 EvExecute NULL true] w0) = [].
Proof. reflexivity. Qed.

(** [finish] succeeds although the work it drains failed. *)
Example scenario_finish_hides_failure :
  let w0 := with_listener (Some listener)
              (fresh false (mkScript [] [Enqueued] [AlgorithmFailure 5])) in
  let w1 := run [EvExecute (Some frame) false] w0 in
  fst (finish w1) = XCAM_RETURN_NO_ERROR /\
  notified (snd (finish w1)) = [heard (AlgorithmFailure 5)].
Proof. repeat split. Qed.

End Scenarios.


(** ** The buffer probe of the video-stabilization test *)

Section ProbeProps.
Variable get_planar_info :
  VideoBufferInfo -> VideoBufferPlanarInfo -> Z -> VideoBufferPlanarInfo.
Variable planar0 : VideoBufferPlanarInfo.

(** A loop whose every round keeps a view [f] of the state keeps it. *)
Lemma for_upto_keeps {S V : Type} (f : S -> V) (body : Z -> S -> option S) :
  (forall i s s', body i s = Some s' -> f s' = f s) ->
  forall n i s s', for_upto n i body s = Some s' -> f s' = f s.
Proof.
  intros Hbody. induction n as [|n IH]; intros i s s' H; simpl in H.
  - injection H as <-. reflexivity.
  - destruct (body i s) as [s1|] eqn:Hb; [|discriminate].
    rewrite (IH _ _ _ H). apply (Hbody _ _ _ Hb).
Qed.

(** The only store writes back the value that was read. *)
Lemma touch_keeps (memory memory' : list Byte.byte) (mem_idx : Z) :
  touch memory mem_idx = Some memory' -> memory' = memory.
Proof.
  unfold touch. destruct (mem_idx <? 0); [discriminate|].
  destruct (memory !! Z.to_nat mem_idx) as [b|] eqn:Hb; [|discriminate].
  destruct (Byte.eqb b Byte.x01) eqn:Hone; intros [= <-]; [|reflexivity].
  apply Byte.byte_dec_bl in Hone. subst b.
  apply list_insert_id. exact Hb.
Qed.

Lemma probe_row_keeps (info : VideoBufferInfo) (planar : VideoBufferPlanarInfo)
      (index i : Z) (memory memory' : list Byte.byte) :
  probe_row info planar index i memory = Some memory' -> memory' = memory.
Proof.
  unfold probe_row. destruct (mem_idx_of info planar index i); [|discriminate].
  apply touch_keeps.
Qed.

Lemma probe_plane_keeps (info : VideoBufferInfo) (index : Z)
      (s s' : VideoBufferPlanarInfo * list Byte.byte) :
  probe_plane get_planar_info info index s = Some s' -> snd s' = snd s.
Proof.
  unfold probe_plane.
  destruct (for_upto _ 0 _ (snd s)) as [m|] eqn:Hrows; [|discriminate].
  intros [= <-]. simpl.
  apply (for_upto_keeps (fun m => m) _ (probe_row_keeps info _ index) _ _ _ _ Hrows).
Qed.

(** C10 -- whenever [ensure_gpu_buffer_done] runs to its end (it reads and
    writes inside the mapped memory only), the buffer after the call is the
    buffer before the call: its description and every byte of its mapped
    memory are the same. *)
Theorem ensure_gpu_buffer_done_keeps_memory (buf buf' : VideoBuffer) :
  ensure_gpu_buffer_done get_planar_info planar0 buf = Some buf' ->
  buf' = buf.
Proof.
  unfold ensure_gpu_buffer_done.
  destruct (for_upto _ 0 _ (planar0, memory buf)) as [s|] eqn:Hplanes; [|discriminate].
  intros [= <-].
  rewrite (for_upto_keeps snd _ (probe_plane_keeps (video_info buf)) _ _ _ _ Hplanes).
  destruct buf; reflexivity.
Qed.

(** A read inside the mapped memory gives a result. *)
Lemma touch_defined (memory : list Byte.byte) (mem_idx : Z) :
  0 <= mem_idx < Z.of_nat (length memory) ->
  touch memory mem_idx = Some memory.
Proof.
  intros [Hlo Hhi]. unfold touch.
  destruct (mem_idx <? 0) eqn:Hneg; [apply Z.ltb_lt in Hneg; lia|].
  destruct (lookup_lt_is_Some_2 memory (Z.to_nat mem_idx)) as [b Hb]; [lia|].
  rewrite Hb. destruct (Byte.eqb b Byte.x01) eqn:Hone; [|reflexivity].
  apply Byte.byte_dec_bl in Hone. subst b.
  f_equal. apply list_insert_id. exact Hb.
Qed.

Lemma for_upto_fixed {S : Type} (body : Z -> S -> option S) (s : S) :
  forall n i,
    (forall j, i <= j < i + Z.of_nat n -> body j s = Some s) ->
    for_upto n i body s = Some s.
Proof.
  induction n as [|n IH]; intros i H; [reflexivity|].
  simpl. rewrite H by lia. apply IH. intros j Hj. apply H. lia.
Qed.

(** The probe runs to its end, and gives the buffer back, as soon as the
    last byte of every row of every plane lies in the mapped memory. *)
Lemma ensure_gpu_buffer_done_defined (buf : VideoBuffer) :
  (forall index planar i,
      0 <= index < Z.of_nat (Z.to_nat (components (video_info buf))) ->
      0 <= i < Z.of_nat (Z.to_nat (planar_height
                 (get_planar_info (video_info buf) planar index))) ->
      exists mem_idx,
        mem_idx_of (video_info buf) (get_planar_info (video_info buf) planar index)
                   index i = Some mem_idx /\
        0 <= mem_idx < Z.of_nat (length (memory buf))) ->
  ensure_gpu_buffer_done get_planar_info planar0 buf = Some buf.
Proof.
  intros Hin. unfold ensure_gpu_buffer_done.
  assert (Hplanes : forall n i planar,
             0 <= i -> i + Z.of_nat n <= Z.of_nat (Z.to_nat (components (video_info buf))) ->
             exists planar',
               for_upto n i (probe_plane get_planar_info (video_info buf))
                        (planar, memory buf) = Some (planar', memory buf)).
  { induction n as [|n IH]; intros i planar Hi Hn.
    - exists planar. reflexivity.
    - simpl. unfold probe_plane at 1. simpl.
      rewrite for_upto_fixed.
      + apply IH; lia.
      + intros j Hj. unfold probe_row.
        destruct (Hin i planar j) as (mem_idx & -> & Hrange); [lia|lia|].
        apply touch_defined. exact Hrange. }
  destruct (Hplanes (Z.to_nat (components (video_info buf))) 0 planar0) as [planar' ->];
    [lia|lia|].
  simpl. destruct buf; reflexivity.
Qed.

End ProbeProps.

(** C10, the witness: the probe of the small NV12 frame reads the last byte
    of each of its three rows, finds 1 in the first, stores 1 there, and
    ends with the frame as it was. *)
Lemma ensure_gpu_buffer_done_keeps_memory_witness :
  exists buf' : VideoBuffer,
    ensure_gpu_buffer_done nv12_planes (mkPlanar 0 0 0) small_frame = Some buf' /\
    buf' = small_frame.
Proof.
  exists small_frame. split; [reflexivity|].
  apply (ensure_gpu_buffer_done_keeps_memory nv12_planes (mkPlanar 0 0 0)
           small_frame small_frame).
  reflexivity.
Defined.

Example probe_indices_small_frame :
  mem_idx_of nv12_4x2 (nv12_planes nv12_4x2 (mkPlanar 0 0 0) 0) 0 0 = Some 3 /\
  mem_idx_of nv12_4x2 (nv12_planes nv12_4x2 (mkPlanar 0 0 0) 0) 0 1 = Some 7 /\
  mem_idx_of nv12_4x2 (nv12_planes nv12_4x2 (mkPlanar 0 0 0) 1) 1 0 = Some 11.
Proof. repeat split. Qed.

(** An empty plane description makes the index wrap to -1: the read is
    outside the mapped memory and the model gives no result. *)
Example probe_outside_memory :
  mem_idx_of nv12_4x2 (mkPlanar 0 1 0) 0 0 = Some (-1) /\
  ensure_gpu_buffer_done (fun _ _ _ => mkPlanar 0 1 0) (mkPlanar 0 0 0) small_frame = None.
Proof. split; reflexivity. Qed.

(** ** The pose file reader of the video-stabilization test *)

Section TokenProps.

Lemma c_str_length (buf : list Byte.byte) : (length (c_str buf) <= length buf)%nat.
Proof.
  induction buf as [|c buf IH]; simpl; [lia|].
  destruct (Byte.eqb c Byte.x00); simpl; lia.
Qed.

(** Every token takes at least one byte of the string. *)
Lemma strtok_all_length (cur s : list Byte.byte) :
  (length (strtok_all cur s) <=
   length s + match cur with [] => 0 | _ => 1 end)%nat.
Proof.
  revert cur. induction s as [|c s IH]; intros cur.
  - destruct cur; simpl; lia.
  - simpl. destruct (is_delim c).
    + specialize (IH []). destruct cur; simpl in *; lia.
    + specialize (IH (c :: cur)). simpl in IH. destruct cur; lia.
Qed.

Lemma tokens_le_size (file : list Byte.byte) :
  (length (strtok_all [] (c_str file)) <= length file)%nat.
Proof.
  pose proof (strtok_all_length [] (c_str file)) as H.
  pose proof (c_str_length file). simpl in H. lia.
Qed.

(** Once the limit covers the tokens, [records] does not depend on it. *)
Lemma records_enough {A : Type} (m : nat) :
  (0 < m)%nat ->
  forall (l1 l2 : nat) (toks : list A),
    (length toks < S l1 * m)%nat -> (length toks < S l2 * m)%nat ->
    records l1 m toks = records l2 m toks.
Proof.
  intros Hm. induction l1 as [|l1 IH]; intros l2 toks H1 H2.
  - destruct l2 as [|l2]; [reflexivity|]. simpl.
    destruct (m <=? length toks)%nat eqn:Hle; [|reflexivity].
    apply Nat.leb_le in Hle. lia.
  - destruct l2 as [|l2]; simpl.
    + destruct (m <=? length toks)%nat eqn:Hle; [|reflexivity].
      apply Nat.leb_le in Hle. lia.
    + destruct (m <=? length toks)%nat eqn:Hle; [|reflexivity].
      apply Nat.leb_le in Hle. f_equal.
      apply IH; rewrite length_drop; nia.
Qed.

Lemma records_length {A : Type} (m : nat) :
  (0 < m)%nat ->
  forall (limit : nat) (toks : list A),
    (length toks < S limit * m)%nat ->
    length (records limit m toks) = (length toks / m)%nat.
Proof.
  intros Hm. induction limit as [|limit IH]; intros toks Hlt.
  - simpl. symmetry. apply Nat.div_small. lia.
  - simpl. destruct (m <=? length toks)%nat eqn:Hle.
    + apply Nat.leb_le in Hle. simpl. rewrite IH by (rewrite length_drop; nia).
      rewrite length_drop.
      replace (length toks) with ((length toks - m) + 1 * m)%nat at 2 by lia.
      rewrite Nat.div_add by lia. lia.
    + apply Nat.leb_gt in Hle. simpl. symmetry. apply Nat.div_small. lia.
Qed.

(** [all_records] gives back the records a token list was built from, and
    leaves out a shorter tail. *)
Lemma all_records_concat {A : Type} (m : nat) (rs : list (list A)) (tail : list A) :
  (0 < m)%nat ->
  Forall (fun r => length r = m) rs ->
  (length tail < m)%nat ->
  all_records m (concat rs ++ tail) = rs.
Proof.
  intros Hm Hrs Htail. unfold all_records.
  rewrite (records_enough m Hm _ (length rs)).
  - induction Hrs as [|r rs Hr _ IH]; simpl.
    + destruct tail; [reflexivity|]. simpl in *.
      destruct m as [|m]; [lia|].
      destruct (m <=? length tail)%nat eqn:Hle; [|reflexivity].
      apply Nat.leb_le in Hle. lia.
    + rewrite <- app_assoc, length_app.
      replace (m <=? length r + length (concat rs ++ tail))%nat with true
        by (symmetry; apply Nat.leb_le; lia).
      rewrite take_app_length' by (symmetry; exact Hr).
      rewrite drop_app_length' by (symmetry; exact Hr).
      f_equal. exact IH.
  - nia.
  - rewrite length_app.
    assert (length (concat rs) = (length rs * m)%nat) as ->; [|nia].
    clear -Hrs. induction Hrs as [|r rs Hr _ IH]; simpl; [reflexivity|].
    rewrite length_app, IH, Hr. reflexivity.
Qed.

End TokenProps.

Section PoseProps.
Context {Num : Type}.
Variable strtof : list Byte.byte -> Num.
Variable usec_of : Num -> Z.
Variable orient_size trans_size : Z.
Variable pose0 : DevicePose Num.

(** The sizes are those of the arrays of a new pose. *)
Hypothesis orient_length : Z.of_nat (length (orientation pose0)) = orient_size.
Hypothesis trans_length : Z.of_nat (length (translation pose0)) = trans_size.

Abbreviation record_size := (orient_size + trans_size + 1).
Abbreviation Pose_after := (pose_after strtof orient_size trans_size pose0).
Abbreviation Pose_of_record := (pose_of_record strtof usec_of orient_size trans_size pose0).
Abbreviation Store := (store usec_of orient_size trans_size).
Abbreviation Pose_loop := (pose_loop strtof usec_of orient_size trans_size pose0).

Lemma int_range_id (z : Z) : 0 <= z <= INT_MAX -> to_int (wrap32 z) = z.
Proof.
  unfold INT_MAX, to_int, wrap32. intros Hz.
  rewrite Z.mod_small by lia.
  destruct (z <? 2 ^ 31) eqn:Hlt; [reflexivity|]. apply Z.ltb_ge in Hlt. lia.
Qed.

(** Position in the record and number of the record, as the loop computes
    them from [count]. *)
Lemma position_of_count (q x : Z) :
  0 <= q -> 0 <= x < record_size -> q * record_size + x <= INT_MAX ->
  to_int (wrap32 (q * record_size + x) mod record_size) = x /\
  to_int (wrap32 (q * record_size + x) / record_size) = q.
Proof.
  intros Hq Hx Hmax.
  assert (0 <= q * record_size + x <= INT_MAX) as Hc by nia.
  assert (wrap32 (q * record_size + x) = q * record_size + x) as ->.
  { unfold wrap32, INT_MAX in *. apply Z.mod_small. lia. }
  assert ((q * record_size + x) mod record_size = x) as ->.
  { rewrite Z.add_comm, Z.mod_add by lia. apply Z.mod_small. lia. }
  assert ((q * record_size + x) / record_size = q) as ->.
  { rewrite Z.add_comm, Z.div_add by lia. rewrite Z.div_small by lia. lia. }
  unfold to_int, INT_MAX in *.
  split.
  - destruct (x <? 2 ^ 31) eqn:Hlt; [reflexivity|]. apply Z.ltb_ge in Hlt. nia.
  - destruct (q <? 2 ^ 31) eqn:Hlt; [reflexivity|]. apply Z.ltb_ge in Hlt. nia.
Qed.

Lemma pose_after_nil : Pose_after [] = pose0.
Proof.
  unfold pose_after. rewrite drop_nil, !take_nil. simpl.
  destruct pose0; reflexivity.
Qed.

(** A store before the time stamp fills the next cell of the pose. *)
Lemma store_inside (pre : list (list Byte.byte)) (tok : list Byte.byte)
      (l : list (DevicePose Num)) :
  Z.of_nat (length pre) < orient_size + trans_size ->
  Store (Z.of_nat (length pre)) (strtof tok) (Some (Pose_after pre)) l =
  Some (Some (Pose_after (pre ++ [tok])), l).
Proof.
  intros Hlt. unfold store.
  assert (0 <= orient_size) as Ho by lia.
  assert (0 <= trans_size) as Ht by lia.
  destruct (Z.of_nat (length pre) <? orient_size) eqn:Hx.
  - apply Z.ltb_lt in Hx. unfold pose_after at 1. simpl. unfold array_set.
    rewrite length_app, length_map, length_take, length_drop.
    replace ((0 <=? Z.of_nat (length pre)) &&
             (Z.of_nat (length pre) <?
              Z.of_nat (Z.to_nat orient_size `min` length pre +
                        (length (orientation pose0) - length pre))))
      with true by (symmetry; apply andb_true_iff; split;
                    [apply Z.leb_le|apply Z.ltb_lt]; lia).
    unfold pose_after. rewrite Nat2Z.id. do 3 f_equal. f_equal.
    + rewrite (take_ge pre) by lia.
      rewrite (take_ge (pre ++ [tok])) by (rewrite length_app; simpl; lia).
      rewrite map_app. simpl.
      rewrite <- (length_map strtof pre) at 1.
      rewrite <- (Nat.add_0_r (length (map strtof pre))), insert_app_r.
      rewrite <- app_assoc. f_equal. simpl.
      rewrite length_app. simpl.
      destruct (drop (length pre) (orientation pose0)) as [|o os] eqn:Hd.
      * apply (f_equal length) in Hd. rewrite length_drop in Hd. simpl in Hd. lia.
      * simpl. f_equal.
        rewrite <- (drop_drop _ 1 (length pre)). rewrite Hd. reflexivity.
    + rewrite (drop_ge pre) by lia.
      rewrite (drop_ge (pre ++ [tok])) by (rewrite length_app; simpl; lia).
      simpl. rewrite length_app. simpl.
      replace (length pre - Z.to_nat orient_size)%nat with 0%nat by lia.
      replace (length pre + 1 - Z.to_nat orient_size)%nat with 0%nat by lia.
      reflexivity.
  - apply Z.ltb_ge in Hx.
    replace (Z.of_nat (length pre) <? orient_size + trans_size) with true
      by (symmetry; apply Z.ltb_lt; lia).
    unfold pose_after at 1. simpl. unfold array_set.
    rewrite length_app, length_map, length_take, !length_drop.
    replace ((0 <=? Z.of_nat (length pre) - orient_size) &&
             (Z.of_nat (length pre) - orient_size <?
              Z.of_nat (Z.to_nat trans_size `min` (length pre - Z.to_nat orient_size) +
                        (length (translation pose0) -
                         (length pre - Z.to_nat orient_size)))))
      with true by (symmetry; apply andb_true_iff; split;
                    [apply Z.leb_le|apply Z.ltb_lt]; lia).
    unfold pose_after. do 3 f_equal. f_equal.
    + rewrite take_app_le by lia. rewrite length_app. simpl.
      rewrite !drop_ge by lia. reflexivity.
    + rewrite drop_app_le by lia.
      rewrite (take_ge (drop _ pre)) by (rewrite length_drop; lia).
      rewrite (take_ge (drop _ pre ++ [tok]))
        by (rewrite length_app, length_drop; simpl; lia).
      rewrite map_app. simpl.
      replace (Z.to_nat (Z.of_nat (length pre) - orient_size))
        with (length (map strtof (drop (Z.to_nat orient_size) pre)) + 0)%nat
        by (rewrite length_map, length_drop; lia).
      rewrite insert_app_r, <- app_assoc. f_equal. simpl.
      rewrite length_app. simpl.
      destruct (drop (length pre - Z.to_nat orient_size) (translation pose0))
        as [|t ts] eqn:Hd.
      * apply (f_equal length) in Hd. rewrite length_drop in Hd. simpl in Hd. lia.
      * simpl. f_equal.
        replace (length pre + 1 - Z.to_nat orient_size)%nat
          with (length pre - Z.to_nat orient_size + 1)%nat by lia.
        rewrite <- (drop_drop _ 1 (length pre - Z.to_nat orient_size)).
        rewrite Hd. reflexivity.
Qed.

(** The store of the time stamp completes the pose and appends it. *)
Lemma store_last (pre : list (list Byte.byte)) (tok : list Byte.byte)
      (l : list (DevicePose Num)) :
  Z.of_nat (length pre) = orient_size + trans_size ->
  Store (Z.of_nat (length pre)) (strtof tok) (Some (Pose_after pre)) l =
  Some (Some (Pose_of_record (pre ++ [tok])), l ++ [Pose_of_record (pre ++ [tok])]).
Proof.
  intros Heq. unfold store.
  assert (0 <= orient_size) as Ho by lia.
  assert (0 <= trans_size) as Ht by lia.
  replace (Z.of_nat (length pre) <? orient_size) with false
    by (symmetry; apply Z.ltb_ge; lia).
  replace (Z.of_nat (length pre) <? orient_size + trans_size) with false
    by (symmetry; apply Z.ltb_ge; lia).
  rewrite (proj2 (Z.eqb_eq _ _) Heq).
  assert (Pose_of_record (pre ++ [tok]) =
          mkPose (orientation (Pose_after pre)) (translation (Pose_after pre))
                 (usec_of (strtof tok))) as ->; [|reflexivity].
  unfold pose_of_record, pose_after. simpl. f_equal.
  - rewrite take_app_le by lia. rewrite drop_ge by lia. rewrite app_nil_r. reflexivity.
  - rewrite drop_app_le by lia.
    rewrite take_app_le by (rewrite length_drop; lia).
    rewrite (drop_ge (translation pose0)) by lia. rewrite app_nil_r. reflexivity.
  - rewrite <- Heq, Nat2Z.id.
    rewrite lookup_app_r by lia. rewrite Nat.sub_diag. reflexivity.
Qed.

Lemma pose_loop_cons (members entries : Z) (str_num : list Byte.byte)
      (rest : list (list Byte.byte)) (count : Z) (data : SmartPtr (DevicePose Num))
      (l : list (DevicePose Num)) :
  Pose_loop members entries (str_num :: rest) count data l =
  if to_int (wrap32 count / members) >=? entries then Some (count, l)
  else
    match Store (to_int (wrap32 count mod members)) (strtof str_num)
                (if to_int (wrap32 count mod members) =? 0 then Some pose0 else data) l with
    | Some (data2, l2) =>
        if count + 1 >? INT_MAX then None
        else Pose_loop members entries rest (count + 1) data2 l2
    | None => None
    end.
Proof. reflexivity. Qed.

(** The tokens of a record before its time stamp are stored one by one in
    the pose under construction; nothing is appended. *)
Lemma loop_inside (entries q : Z) (rest : list (list Byte.byte))
      (l : list (DevicePose Num)) :
  0 <= q < entries ->
  forall (toks pre : list (list Byte.byte)) (data : SmartPtr (DevicePose Num)),
    q * record_size + Z.of_nat (length pre) + Z.of_nat (length toks) <= INT_MAX ->
    Z.of_nat (length pre) + Z.of_nat (length toks) <= orient_size + trans_size ->
    (pre = [] \/ data = Some (Pose_after pre)) ->
    exists data',
      (pre ++ toks = [] \/ data' = Some (Pose_after (pre ++ toks))) /\
      Pose_loop record_size entries (toks ++ rest)
                (q * record_size + Z.of_nat (length pre)) data l =
      Pose_loop record_size entries rest
                (q * record_size + Z.of_nat (length pre) + Z.of_nat (length toks))
                data' l.
Proof.
  intros Hq. induction toks as [|tok toks IH]; intros pre data Hmax Hlen Hdata.
  - exists data. rewrite app_nil_r. split; [exact Hdata|].
    simpl. rewrite Z.add_0_r. reflexivity.
  - simpl length in *.
    destruct (IH (pre ++ [tok]) (Some (Pose_after (pre ++ [tok])))) as (data' & Hd' & Heq).
    { rewrite length_app. simpl. lia. }
    { rewrite length_app. simpl. lia. }
    { right. reflexivity. }
    exists data'. rewrite <- app_assoc in Hd'. simpl in Hd'. split; [exact Hd'|].
    rewrite <- app_comm_cons, pose_loop_cons.
    destruct (position_of_count q (Z.of_nat (length pre))) as [-> ->]; [lia..|].
    replace (q >=? entries) with false by (symmetry; rewrite Z.geb_leb; apply Z.leb_gt; lia).
    match goal with
    | |- context [store _ _ _ _ _ ?d _] => assert (d = Some (Pose_after pre)) as ->
    end.
    { destruct (Z.of_nat (length pre) =? 0) eqn:H0.
      - apply Z.eqb_eq in H0. destruct pre; [|simpl in H0; lia].
        rewrite pose_after_nil. reflexivity.
      - apply Z.eqb_neq in H0. destruct Hdata as [-> | ->]; [simpl in H0; lia|reflexivity]. }
    rewrite store_inside by lia.
    replace (q * record_size + Z.of_nat (length pre) + 1 >? INT_MAX) with false
      by (symmetry; rewrite Z.gtb_ltb; apply Z.ltb_ge; lia).
    rewrite length_app in Heq. simpl in Heq.
    replace (q * record_size + Z.of_nat (length pre) + 1)
      with (q * record_size + Z.of_nat (length pre + 1)) by lia.
    rewrite Heq. f_equal. lia.
Qed.

(** A complete record appends its pose and moves [count] to the next
    record. *)
Lemma loop_record (entries q : Z) (rec rest : list (list Byte.byte))
      (data : SmartPtr (DevicePose Num)) (l : list (DevicePose Num)) :
  0 <= q < entries ->
  Z.of_nat (length rec) = record_size ->
  (q + 1) * record_size <= INT_MAX ->
  exists data',
    Pose_loop record_size entries (rec ++ rest) (q * record_size) data l =
    Pose_loop record_size entries rest ((q + 1) * record_size) data'
              (l ++ [Pose_of_record rec]).
Proof.
  intros Hq Hlen Hmax.
  assert (0 <= orient_size) as Ho by lia.
  assert (0 <= trans_size) as Ht by lia.
  destruct rec as [|t0 rec0] using rev_ind; [simpl in Hlen; lia|]. clear IHrec0.
  rename rec0 into init, t0 into tok.
  rewrite length_app in Hlen. simpl in Hlen.
  destruct (loop_inside entries q (tok :: rest) l Hq init [] data) as (data1 & Hd1 & Heq);
    [simpl; lia|simpl; lia|left; reflexivity|].
  rewrite app_nil_l in Hd1.
  change (Z.of_nat (length (@nil (list Byte.byte)))) with 0 in Heq.
  rewrite Z.add_0_r in Heq.
  exists (Some (Pose_of_record (init ++ [tok]))).
  rewrite <- app_assoc. change ([tok] ++ rest) with (tok :: rest).
  rewrite Heq, pose_loop_cons.
  destruct (position_of_count q (Z.of_nat (length init))) as [-> ->]; [lia..|].
  replace (q >=? entries) with false by (symmetry; rewrite Z.geb_leb; apply Z.leb_gt; lia).
  match goal with
  | |- context [store _ _ _ _ _ ?d _] => assert (d = Some (Pose_after init)) as ->
  end.
  { destruct (Z.of_nat (length init) =? 0) eqn:H0.
    - apply Z.eqb_eq in H0. destruct init; [|simpl in H0; lia].
      rewrite pose_after_nil. reflexivity.
    - apply Z.eqb_neq in H0. destruct Hd1 as [-> | ->]; [simpl in H0; lia|reflexivity]. }
  rewrite store_last by lia.
  replace (q * record_size + Z.of_nat (length init) + 1 >? INT_MAX) with false
    by (symmetry; rewrite Z.gtb_ltb; apply Z.ltb_ge; lia).
  f_equal. lia.
Qed.

(** The loop of [read_device_pose], started at the beginning of record number
    [q] with [limit] records still allowed by [entries]. *)
Lemma pose_loop_records (entries : Z) (limit : nat) :
  forall (q : Z) (toks : list (list Byte.byte)) (data : SmartPtr (DevicePose Num))
         (l : list (DevicePose Num)),
    Z.of_nat limit = Z.max 0 (entries - q) ->
    0 <= q ->
    q * record_size + Z.of_nat (length toks) <= INT_MAX ->
    exists count,
      Pose_loop record_size entries toks (q * record_size) data l =
      Some (count,
            l ++ map Pose_of_record (records limit (Z.to_nat record_size) toks)) /\
      0 <= count <= INT_MAX /\
      count / record_size =
      q + Z.of_nat (length (records limit (Z.to_nat record_size) toks)).
Proof.
  assert (0 <= orient_size) as Ho by lia.
  assert (0 <= trans_size) as Ht by lia.
  induction limit as [|limit IH]; intros q toks data l Hlimit Hq Hmax.
  - exists (q * record_size). simpl. rewrite app_nil_r.
    split; [|split; [nia|rewrite Z.div_mul by lia; lia]].
    destruct toks as [|tok toks]; [reflexivity|].
    rewrite pose_loop_cons.
    destruct (position_of_count q 0) as [_ Hy]; [lia|lia|simpl in Hmax; lia|].
    rewrite Z.add_0_r in Hy. rewrite Hy.
    replace (q >=? entries) with true
      by (symmetry; rewrite Z.geb_leb; apply Z.leb_le; lia).
    reflexivity.
  - simpl records. destruct (Z.to_nat record_size <=? length toks)%nat eqn:Hle.
    + apply Nat.leb_le in Hle.
      destruct (loop_record entries q (take (Z.to_nat record_size) toks)
                            (drop (Z.to_nat record_size) toks) data l)
        as (data1 & Hrec); [lia|rewrite length_take; lia|lia|].
      rewrite take_drop in Hrec.
      destruct (IH (q + 1) (drop (Z.to_nat record_size) toks) data1
                   (l ++ [Pose_of_record (take (Z.to_nat record_size) toks)]))
        as (count & Heq & Hrange & Hdiv); [lia|lia|rewrite length_drop; lia|].
      exists count. rewrite Hrec, Heq, <- app_assoc. simpl. repeat split; try lia.
    + apply Nat.leb_gt in Hle.
      destruct (loop_inside entries q [] l ltac:(lia) toks [] data)
        as (data1 & _ & Heq); [simpl; lia|simpl; lia|left; reflexivity|].
      rewrite app_nil_r in Heq.
      change (Z.of_nat (length (@nil (list Byte.byte)))) with 0 in Heq.
      rewrite !Z.add_0_r in Heq.
      exists (q * record_size + Z.of_nat (length toks)).
      rewrite Heq. simpl. rewrite app_nil_r.
      split; [reflexivity|]. split; [nia|].
      rewrite Z.add_comm, Z.div_add by lia. rewrite Z.div_small by lia. lia.
Qed.

Lemma records_at_most {A : Type} (limit m : nat) (toks : list A) :
  (length (records limit m toks) <= limit)%nat.
Proof.
  revert toks. induction limit as [|limit IH]; intros toks; simpl; [lia|].
  destruct (m <=? length toks)%nat; simpl; [|lia]. specialize (IH (drop m toks)). lia.
Qed.

(** X9 -- the loop of [read_device_pose], entered with [count = 0] and a bound
    [entries]: it keeps the poses already in the list, appends, in order, the
    poses of the complete records among the tokens and never more than
    [entries] of them, and leaves with a [count] whose quotient by the record
    size is the number of poses it appended. *)
Theorem pose_loop_appends_records (entries : Z) (toks : list (list Byte.byte))
        (l : list (DevicePose Num)) :
  0 <= entries ->
  Z.of_nat (length toks) <= INT_MAX ->
  exists count appended,
    Pose_loop record_size entries toks 0 NULL l = Some (count, l ++ appended) /\
    appended = map Pose_of_record
                   (records (Z.to_nat entries) (Z.to_nat record_size) toks) /\
    Z.of_nat (length appended) <= entries /\
    count / record_size = Z.of_nat (length appended).
Proof.
  intros Hent Hmax.
  destruct (pose_loop_records entries (Z.to_nat entries) 0 toks NULL l)
    as (count & Heq & _ & Hdiv); [lia|lia|lia|].
  change (0 * record_size) with 0 in Heq.
  exists count, (map Pose_of_record
                     (records (Z.to_nat entries) (Z.to_nat record_size) toks)).
  rewrite length_map.
  pose proof (records_at_most (Z.to_nat entries) (Z.to_nat record_size) toks).
  repeat split; [exact Heq|lia|lia].
Qed.

(** [read_device_pose] on a file of less than 2^31 bytes, called with the
    size of a record (orientation, translation and one time stamp), in terms
    of the complete records of its tokens. *)
Lemma read_device_pose_records (file : list Byte.byte)
        (l : list (DevicePose Num)) :
  Z.of_nat (length file) <= INT_MAX ->
  let recs := all_records (Z.to_nat record_size) (strtok_all [] (c_str file)) in
  read_device_pose strtof usec_of orient_size trans_size pose0 file l record_size =
  Some (Z.of_nat (length recs), l ++ map Pose_of_record recs).
Proof.
  intros Hsize recs. subst recs.
  assert (0 <= orient_size) as Ho by lia.
  assert (0 <= trans_size) as Ht by lia.
  pose proof (tokens_le_size file) as Htok.
  unfold read_device_pose.
  replace (record_size =? 0) with false by (symmetry; apply Z.eqb_neq; lia).
  assert (0 <= Z.of_nat (length file) / record_size <= INT_MAX) as Hent.
  { split; [apply Z.div_pos; lia|].
    transitivity (Z.of_nat (length file)); [|exact Hsize].
    apply Z.div_le_upper_bound; nia. }
  rewrite (int_range_id _ Hent).
  pose proof (Z.mul_succ_div_gt (Z.of_nat (length file)) record_size ltac:(lia)) as Hgt.
  set (entries := Z.of_nat (length file) / record_size) in *.
  destruct (pose_loop_records entries (Z.to_nat entries) 0
              (strtok_all [] (c_str file)) NULL l)
    as (count & Heq & Hrange & Hdiv); [lia|lia|lia|].
  change (0 * record_size) with 0 in Heq. rewrite Heq.
  assert (records (Z.to_nat entries) (Z.to_nat record_size) (strtok_all [] (c_str file))
          = all_records (Z.to_nat record_size) (strtok_all [] (c_str file))) as Hrec.
  { unfold all_records. apply records_enough; [lia| |nia]. nia. }
  rewrite Hrec in *. f_equal. f_equal.
  assert (0 <= count / record_size <= INT_MAX) as Hret.
  { split; [apply Z.div_pos; lia|].
    transitivity count; [|lia]. apply Z.div_le_upper_bound; nia. }
  assert (wrap32 count = count) as ->.
  { unfold wrap32, INT_MAX in *. apply Z.mod_small. lia. }
  rewrite Hdiv in *.
  unfold to_int, INT_MAX in *.
  match goal with |- (if ?b then _ else _) = _ => destruct b eqn:Hlt end;
    [lia|apply Z.ltb_ge in Hlt; lia].
Qed.

(** X8 -- [read_device_pose] on a file of less than 2^31 bytes, called with the
    size of a record: when the numbers of the file are the records [rs], of
    that size each, followed by fewer numbers than a record holds, the call
    keeps the poses already in the list, appends the pose of every record of
    [rs], in file order, and returns their number; the numbers after the last
    complete record are left out. *)
Theorem read_device_pose_reads_all_records (file : list Byte.byte)
        (rs : list (list (list Byte.byte))) (tail : list (list Byte.byte))
        (l : list (DevicePose Num)) :
  Z.of_nat (length file) <= INT_MAX ->
  strtok_all [] (c_str file) = concat rs ++ tail ->
  Forall (fun r => Z.of_nat (length r) = record_size) rs ->
  Z.of_nat (length tail) < record_size ->
  read_device_pose strtof usec_of orient_size trans_size pose0 file l record_size =
  Some (Z.of_nat (length rs), l ++ map Pose_of_record rs).
Proof.
  intros Hsize Htoks Hrs Htail.
  rewrite (read_device_pose_records file l Hsize). simpl. rewrite Htoks.
  rewrite all_records_concat; [reflexivity|lia| |lia].
  eapply Forall_impl; [exact Hrs|]. intros r Hr. simpl in Hr. lia.
Qed.

End PoseProps.

(** [read_device_pose] on the two-line file: the record of the first line is
    read, the two numbers of the second line are left out. *)
Lemma read_device_pose_reads_all_records_witness :
  read_device_pose (fun tok => tok) text_length 4 3 blank_pose two_lines [] (4 + 3 + 1) =
  Some (1, [mkPose [[Byte.x31]; [Byte.x32]; [Byte.x33]; [Byte.x34]]
                   [[Byte.x35]; [Byte.x36]; [Byte.x37]] 1]).
Proof.
  apply (read_device_pose_reads_all_records (fun tok => tok) text_length 4 3 blank_pose
           eq_refl eq_refl two_lines
           [[[Byte.x31]; [Byte.x32]; [Byte.x33]; [Byte.x34];
             [Byte.x35]; [Byte.x36]; [Byte.x37]; [Byte.x38]]]
           [[Byte.x39]; [Byte.x31; Byte.x30]] []).
  - vm_compute. discriminate.
  - reflexivity.
  - repeat constructor.
  - reflexivity.
Defined.

(** The loop on three records of two tokens with [entries = 2]: the third
    record is not read. *)
Lemma pose_loop_appends_records_witness :
  exists count appended,
    pose_loop (fun tok => tok) text_length 1 0 (mkPose [[]] [] 0) (1 + 0 + 1) 2
              [[Byte.x31]; [Byte.x32]; [Byte.x33]; [Byte.x34]; [Byte.x35]; [Byte.x36]]
              0 NULL [] = Some (count, [] ++ appended) /\
    appended = map (pose_of_record (fun tok => tok) text_length 1 0 (mkPose [[]] [] 0))
                   (records (Z.to_nat 2) (Z.to_nat (1 + 0 + 1))
                      [[Byte.x31]; [Byte.x32]; [Byte.x33]; [Byte.x34];
                       [Byte.x35]; [Byte.x36]]) /\
    Z.of_nat (length appended) <= 2 /\
    count / (1 + 0 + 1) = Z.of_nat (length appended).
Proof.
  apply (pose_loop_appends_records (fun tok => tok) text_length 1 0 (mkPose [[]] [] 0)
           eq_refl eq_refl 2
           [[Byte.x31]; [Byte.x32]; [Byte.x33]; [Byte.x34]; [Byte.x35]; [Byte.x36]]
           []).
  - lia.
  - vm_compute. discriminate.
Defined.

Example pose_loop_stops_at_entries :
  pose_loop (fun tok => tok) text_length 1 0 (mkPose [[]] [] 0) 2 2
            [[Byte.x31]; [Byte.x32]; [Byte.x33]; [Byte.x34]; [Byte.x35]; [Byte.x36]]
            0 NULL [] =
  Some (4, [mkPose [[Byte.x31]] [] 1; mkPose [[Byte.x33]] [] 1]).
Proof. reflexivity. Qed.

Section PoseEdgeProps.
Context {Num : Type}.
Variable strtof : list Byte.byte -> Num.
Variable usec_of : Num -> Z.
Variable orient_size trans_size : Z.
Variable pose0 : DevicePose Num.
Hypothesis orient_length : Z.of_nat (length (orientation pose0)) = orient_size.
Hypothesis trans_length : Z.of_nat (length (translation pose0)) = trans_size.

(** X10 -- a file that holds fewer numbers than one record (an empty file, a file
    of separators, a truncated first line) gives no pose: the list is left as
    it was and the returned count is 0. *)
Theorem read_device_pose_short_file (file : list Byte.byte) (l : list (DevicePose Num)) :
  Z.of_nat (length file) <= INT_MAX ->
  Z.of_nat (length (strtok_all [] (c_str file))) < orient_size + trans_size + 1 ->
  read_device_pose strtof usec_of orient_size trans_size pose0 file l
                   (orient_size + trans_size + 1) = Some (0, l).
Proof.
  intros Hsize Hshort.
  rewrite (read_device_pose_records strtof usec_of orient_size trans_size
             pose0 orient_length trans_length file l Hsize).
  rewrite <- (app_nil_l (strtok_all [] (c_str file))).
  change (@nil (list Byte.byte)) with (concat (@nil (list (list Byte.byte)))) at 1 2.
  rewrite !all_records_concat by (try constructor; lia).
  simpl. rewrite app_nil_r. reflexivity.
Qed.

End PoseEdgeProps.

Lemma read_device_pose_short_file_witness :
  read_device_pose (fun tok => tok) text_length 4 3 blank_pose
                   (String.list_byte_of_string "0.5, 0.25") [] (4 + 3 + 1) = Some (0, []).
Proof.
  apply (read_device_pose_short_file (fun tok => tok) text_length 4 3 blank_pose
           eq_refl eq_refl (String.list_byte_of_string "0.5, 0.25") []).
  - vm_compute. discriminate.
  - vm_compute. reflexivity.
Defined.

(** ** More on the metadata container *)

Section ContainerProps.
Variable derives : ClassId -> ClassId -> bool.

Lemma add_all_metas (items : list (SmartPtr MetaBase)) (p : Parameters) :
  _metas (add_all items p) = _metas p ++ List.filter ptr items.
Proof.
  revert p. induction items as [|m items IH]; intros p.
  - simpl. rewrite app_nil_r. reflexivity.
  - simpl. rewrite (IH (snd (add_meta m p))). destruct m as [o|]; simpl; [|reflexivity].
    unfold push_back. rewrite <- app_assoc. reflexivity.
Qed.

Lemma add_all_buffers (items : list (SmartPtr MetaBase)) (p : Parameters) :
  in_buf (add_all items p) = in_buf p /\ out_buf (add_all items p) = out_buf p.
Proof.
  revert p. induction items as [|m items IH]; intros p; [split; reflexivity|].
  simpl. destruct (IH (snd (add_meta m p))) as [-> ->].
  destruct m; split; reflexivity.
Qed.

(** X1 -- after any sequence of [add_meta] calls the container holds what it held
    before followed by the non-null pointers of the sequence, in call order;
    the two buffers of the parameters are not touched. *)
Theorem add_all_keeps_order (items : list (SmartPtr MetaBase)) (p : Parameters) :
  _metas (add_all items p) = _metas p ++ List.filter ptr items /\
  in_buf (add_all items p) = in_buf p /\
  out_buf (add_all items p) = out_buf p.
Proof.
  split; [apply add_all_metas|apply add_all_buffers].
Qed.

(** X2 -- an item that does not satisfy the requested type, and a null pointer,
    change nothing of what [find_meta] returns for that type. *)
Theorem add_meta_other_type (T : ClassId) (meta : SmartPtr MetaBase) (p : Parameters) :
  dynamic_cast_ptr derives T meta = NULL ->
  find_meta derives T (snd (add_meta meta p)) = find_meta derives T p.
Proof.
  intros Hcast. unfold find_meta, add_meta.
  destruct meta as [o|]; simpl; [|reflexivity].
  unfold push_back. rewrite find_meta_from_app.
  destruct (find_meta_from derives T (_metas p)); [reflexivity|].
  simpl. simpl in Hcast. unfold NULL in Hcast. rewrite Hcast. reflexivity.
Qed.

(** X3 -- what [find_meta] has found once, it keeps finding: no later [add_meta]
    displaces the item returned for a type. *)
Theorem find_meta_stable (T : ClassId) (m : MetaBase)
        (items : list (SmartPtr MetaBase)) (p : Parameters) :
  find_meta derives T p = Some m ->
  find_meta derives T (add_all items p) = Some m.
Proof.
  intros Hfound. unfold find_meta in *.
  rewrite add_all_metas, find_meta_from_app, Hfound. reflexivity.
Qed.

(** X4 -- [find_meta] answers with a non-null pointer exactly when some attached
    item satisfies the requested type. *)
Theorem find_meta_found_iff (T : ClassId) (p : Parameters) :
  ptr (find_meta derives T p) = true <->
  exists m, In (Some m) (_metas p) /\ derives (meta_class m) T = true.
Proof.
  pose proof (find_meta_from_first derives T (_metas p)) as H.
  change (find_meta_from derives T (_metas p)) with (find_meta derives T p) in H. split.
  - destruct (find_meta derives T p) as [m|]; [|discriminate].
    intros _. destruct H as (before & after & Heq & Hd & _).
    exists m. split; [|exact Hd]. rewrite Heq. apply in_or_app. right. left. reflexivity.
  - intros (m & Hin & Hd).
    destruct (find_meta derives T p) as [m'|]; [reflexivity|]. exfalso.
    rewrite Forall_forall in H. apply list_elem_of_In in Hin.
    specialize (H _ Hin). simpl in H. rewrite Hd in H. discriminate.
Qed.

(** X5 -- looking up a type in parameters filled by a sequence of [add_meta] calls
    is scanning the sequence itself: the null pointers that [add_meta]
    refused would not have matched any type. *)
Theorem find_meta_of_add_all (T : ClassId) (items : list (SmartPtr MetaBase))
        (i o : SmartPtr VideoBuffer) :
  find_meta derives T (add_all items (new_Parameters i o)) =
  find_meta_from derives T items.
Proof.
  unfold find_meta. rewrite add_all_metas.
  simpl. induction items as [|m items IH]; [reflexivity|].
  destruct m as [obj|].
  - change (List.filter ptr (Some obj :: items)) with (Some obj :: List.filter ptr items).
    rewrite !find_meta_from_cons, IH. reflexivity.
  - change (List.filter ptr (None :: items)) with (List.filter ptr items).
    rewrite find_meta_from_cons, IH. reflexivity.
Qed.

End ContainerProps.

Lemma add_meta_other_type_witness :
  find_meta Scripted.pose_hierarchy "Histogram"
            (snd (add_meta (Some Scripted.pose1) Scripted.frame)) =
  find_meta Scripted.pose_hierarchy "Histogram" Scripted.frame.
Proof.
  apply (add_meta_other_type Scripted.pose_hierarchy "Histogram"
           (Some Scripted.pose1) Scripted.frame).
  reflexivity.
Defined.

Lemma find_meta_stable_witness :
  find_meta Scripted.pose_hierarchy "MetaData"
            (add_all [NULL; Some Scripted.pose2]
                     (snd (add_meta (Some Scripted.pose1) Scripted.frame))) =
  Some Scripted.pose1.
Proof.
  apply (find_meta_stable Scripted.pose_hierarchy "MetaData" Scripted.pose1
           [NULL; Some Scripted.pose2]
           (snd (add_meta (Some Scripted.pose1) Scripted.frame))).
  reflexivity.
Defined.

(** ** More on the buffer probe *)

Section ProbeEdgeProps.
Variable get_planar_info :
  VideoBufferInfo -> VideoBufferPlanarInfo -> Z -> VideoBufferPlanarInfo.
Variable planar0 : VideoBufferPlanarInfo.

(** As long as the sum does not leave the range of [int], the probed index
    is the last byte of row [i] of the plane: its offset, [i] strides, and
    the bytes of one line, minus one. *)
Lemma mem_idx_of_no_wrap (info : VideoBufferInfo)
        (planar : VideoBufferPlanarInfo) (index i offset stride : Z) :
  offsets info !! Z.to_nat index = Some offset ->
  strides info !! Z.to_nat index = Some stride ->
  0 <= planar_width planar * pixel_bytes planar < 2 ^ 32 ->
  0 <= offset + i * stride + planar_width planar * pixel_bytes planar - 1 < 2 ^ 31 ->
  mem_idx_of info planar index i =
  Some (offset + i * stride + planar_width planar * pixel_bytes planar - 1).
Proof.
  intros Ho Hs Hline Hsum. unfold mem_idx_of. rewrite Ho, Hs. f_equal.
  unfold wrap32 at 2. rewrite (Z.mod_small _ _ Hline).
  unfold wrap32. rewrite Z.mod_small by lia.
  unfold to_int.
  destruct (_ <? 2 ^ 31) eqn:Hlt; [reflexivity|]. apply Z.ltb_ge in Hlt. lia.
Qed.

(** X6 -- the probe runs to its end and gives the buffer back unchanged when
    the mapped memory is at most 2^31 bytes and every row of every plane
    lies in it: for each plane below [components] and each row below the
    height [get_planar_info] reports, the arrays hold the plane's offset and
    stride, a line has at least one byte, and the row's line ends inside the
    memory. *)
Theorem probe_defined_on_fitting_planes (buf : VideoBuffer) :
  Z.of_nat (length (memory buf)) <= 2 ^ 31 ->
  (forall index planar i,
      0 <= index < components (video_info buf) ->
      0 <= i < planar_height (get_planar_info (video_info buf) planar index) ->
      exists offset stride,
        offsets (video_info buf) !! Z.to_nat index = Some offset /\
        strides (video_info buf) !! Z.to_nat index = Some stride /\
        1 <= planar_width (get_planar_info (video_info buf) planar index)
             * pixel_bytes (get_planar_info (video_info buf) planar index) < 2 ^ 32 /\
        0 <= offset + i * stride /\
        offset + i * stride
        + planar_width (get_planar_info (video_info buf) planar index)
          * pixel_bytes (get_planar_info (video_info buf) planar index)
        <= Z.of_nat (length (memory buf))) ->
  ensure_gpu_buffer_done get_planar_info planar0 buf = Some buf.
Proof.
  intros Hmem Hfit. apply ensure_gpu_buffer_done_defined.
  intros index planar i Hindex Hi.
  destruct (Hfit index planar i) as (offset & stride & Ho & Hs & Hline & Hlo & Hhi);
    [lia|lia|].
  eexists. split.
  - apply (mem_idx_of_no_wrap _ _ index i offset stride Ho Hs); lia.
  - lia.
Qed.

(** X7 -- a first plane that starts at offset 0 and whose lines are empty makes
    the probe of its first row compute the index -1: the read falls before
    the mapped memory and the run is undefined. *)
Theorem probe_empty_line_outside (buf : VideoBuffer) (stride : Z) :
  1 <= components (video_info buf) ->
  offsets (video_info buf) !! 0%nat = Some 0 ->
  strides (video_info buf) !! 0%nat = Some stride ->
  1 <= planar_height (get_planar_info (video_info buf) planar0 0) ->
  wrap32 (planar_width (get_planar_info (video_info buf) planar0 0)
          * pixel_bytes (get_planar_info (video_info buf) planar0 0)) = 0 ->
  ensure_gpu_buffer_done get_planar_info planar0 buf = None.
Proof.
  intros Hc Ho Hs Hh Hline. unfold ensure_gpu_buffer_done.
  destruct (Z.to_nat (components (video_info buf))) as [|n] eqn:Hn; [lia|].
  simpl. unfold probe_plane at 1. simpl.
  destruct (Z.to_nat (planar_height (get_planar_info (video_info buf) planar0 0)))
    as [|k] eqn:Hk; [lia|].
  simpl. unfold probe_row at 1, mem_idx_of.
  change (Z.to_nat 0) with 0%nat. rewrite Ho, Hs, Hline. reflexivity.
Qed.

End ProbeEdgeProps.

Lemma probe_defined_on_fitting_planes_witness :
  ensure_gpu_buffer_done nv12_planes (mkPlanar 0 0 0) small_frame = Some small_frame.
Proof.
  apply (probe_defined_on_fitting_planes nv12_planes (mkPlanar 0 0 0) small_frame).
  - vm_compute. discriminate.
  - intros index planar i Hindex Hi.
    change (components (video_info small_frame)) with 2 in Hindex.
    assert (index = 0 \/ index = 1) as [-> | ->] by lia.
    + change (planar_height _) with 2 in Hi. exists 0, 4.
      change (planar_width _) with 4. change (pixel_bytes _) with 1.
      change (Z.of_nat (length (memory small_frame))) with 12.
      repeat split; try reflexivity; lia.
    + change (planar_height _) with 1 in Hi. exists 8, 4.
      change (planar_width _) with 2. change (pixel_bytes _) with 2.
      change (Z.of_nat (length (memory small_frame))) with 12.
      repeat split; try reflexivity; lia.
Defined.

Lemma probe_empty_line_outside_witness :
  ensure_gpu_buffer_done (fun _ _ _ => mkPlanar 0 1 0) (mkPlanar 0 0 0) small_frame = None.
Proof.
  apply (probe_empty_line_outside (fun _ _ _ => mkPlanar 0 1 0) (mkPlanar 0 0 0)
           small_frame 4); [simpl; lia|reflexivity|reflexivity|simpl; lia|reflexivity].
Defined.

Example probe_small_frame_defined :
  ensure_gpu_buffer_done nv12_planes (mkPlanar 0 0 0) small_frame = Some small_frame.
Proof.
  apply (ensure_gpu_buffer_done_defined nv12_planes (mkPlanar 0 0 0) small_frame).
  intros index planar i Hindex Hi. simpl in Hindex.
  assert (index = 0 \/ index = 1) as [-> | ->] by lia.
  - change (Z.of_nat _) with 2 in Hi.
    assert (i = 0 \/ i = 1) as [-> | ->] by lia; eexists;
      (split; [reflexivity|vm_compute; split; [discriminate|reflexivity]]).
  - change (Z.of_nat _) with 1 in Hi.
    assert (i = 0) as -> by lia. eexists.
    split; [reflexivity|vm_compute; split; [discriminate|reflexivity]].
Defined.

(** ** The pose file reader: what of the file matters *)

Section PoseLayoutProps.
Context {Num : Type}.
Variable strtof : list Byte.byte -> Num.
Variable usec_of : Num -> Z.
Variable orient_size trans_size : Z.
Variable pose0 : DevicePose Num.
Hypothesis orient_length : Z.of_nat (length (orientation pose0)) = orient_size.
Hypothesis trans_length : Z.of_nat (length (translation pose0)) = trans_size.

Abbreviation Read := (read_device_pose strtof usec_of orient_size trans_size pose0).

(** X11 -- only the sequence of numbers matters: two files that split into the
    same tokens, whatever separators and line breaks they use, give the same
    poses and the same count. *)
Theorem read_device_pose_layout_independent (file1 file2 : list Byte.byte)
        (l : list (DevicePose Num)) :
  Z.of_nat (length file1) <= INT_MAX ->
  Z.of_nat (length file2) <= INT_MAX ->
  strtok_all [] (c_str file1) = strtok_all [] (c_str file2) ->
  Read file1 l (orient_size + trans_size + 1) =
  Read file2 l (orient_size + trans_size + 1).
Proof.
  intros H1 H2 Htok.
  rewrite !(read_device_pose_records strtof usec_of orient_size trans_size
              pose0 orient_length trans_length) by assumption.
  rewrite Htok. reflexivity.
Qed.

Lemma c_str_cut (text rest : list Byte.byte) :
  Forall (fun c => Byte.eqb c Byte.x00 = false) text ->
  c_str (text ++ Byte.x00 :: rest) = text /\ c_str text = text.
Proof.
  induction 1 as [|c text Hc _ [IH1 IH2]]; [split; reflexivity|].
  simpl. rewrite Hc, IH1, IH2. split; reflexivity.
Qed.

(** X12 -- the text ends at the first NUL byte of the file: what follows it is not
    read. *)
Theorem read_device_pose_stops_at_nul (text rest : list Byte.byte)
        (l : list (DevicePose Num)) :
  Forall (fun c => Byte.eqb c Byte.x00 = false) text ->
  Z.of_nat (length (text ++ Byte.x00 :: rest)) <= INT_MAX ->
  Read (text ++ Byte.x00 :: rest) l (orient_size + trans_size + 1) =
  Read text l (orient_size + trans_size + 1).
Proof.
  intros Htext Hsize.
  rewrite !(read_device_pose_records strtof usec_of orient_size trans_size
              pose0 orient_length trans_length)
    by (try exact Hsize; rewrite length_app in Hsize; lia).
  destruct (c_str_cut text rest Htext) as [-> ->]. reflexivity.
Qed.

End PoseLayoutProps.

Lemma read_device_pose_layout_independent_witness :
  read_device_pose (fun tok => tok) text_length 1 0 (mkPose [[]] [] 0)
                   (String.list_byte_of_string "1,2") [] (1 + 0 + 1) =
  read_device_pose (fun tok => tok) text_length 1 0 (mkPose [[]] [] 0)
                   (String.list_byte_of_string " 1
2 ") [] (1 + 0 + 1).
Proof.
  apply (read_device_pose_layout_independent (fun tok => tok) text_length 1 0
           (mkPose [[]] [] 0) eq_refl eq_refl
           (String.list_byte_of_string "1,2") (String.list_byte_of_string " 1
2 ") []).
  - vm_compute. discriminate.
  - vm_compute. discriminate.
  - reflexivity.
Defined.

Lemma read_device_pose_stops_at_nul_witness :
  read_device_pose (fun tok => tok) text_length 1 0 (mkPose [[]] [] 0)
                   ([Byte.x31; Byte.x20; Byte.x32] ++ Byte.x00 :: [Byte.x33; Byte.x20; Byte.x34])
                   [] (1 + 0 + 1) =
  read_device_pose (fun tok => tok) text_length 1 0 (mkPose [[]] [] 0)
                   [Byte.x31; Byte.x20; Byte.x32] [] (1 + 0 + 1).
Proof.
  apply (read_device_pose_stops_at_nul (fun tok => tok) text_length 1 0
           (mkPose [[]] [] 0) eq_refl eq_refl
           [Byte.x31; Byte.x20; Byte.x32] [Byte.x33; Byte.x20; Byte.x34] []).
  - repeat constructor.
  - vm_compute. discriminate.
Defined.
